(** * System_arch: the extraction, diagram and step-flow services

    A shallow embedding of the pure parts of
    [backend/services/diagram_service.py], [backend/services/figma_service.py]
    and [backend/services/pdf_service.py], and the properties the
    specification states about them.

    Conventions.  Python [str] values are Rocq strings whose characters are
    code points below 256, so [len] is [String.length].  Python [int] is
    [Z]; [//] is [Z.div] (floor) and a string repeated a negative number of
    times is empty, which is what [Z.to_nat] gives.  A call that can raise
    returns a [result]. *)

From Stdlib Require Import ZArith QArith Ascii String.
From stdpp Require Import base option list strings gmap pretty.

Local Open Scope string_scope.
Local Open Scope list_scope.
Local Open Scope Z_scope.

(** ** The fragment of Python the services use *)

Module Py.

(** An exception: its class and the text [str(e)] gives. *)
Inductive exn_class : Type :=
| ValueError
| KeyError
| AttributeError
| TypeError
| OtherException.

Record exn : Type := Exn { exn_cls : exn_class; exn_str : string }.

Inductive result (A : Type) : Type :=
| Ok (a : A)
| Raise (e : exn).
Arguments Ok {A} a.
Arguments Raise {A} e.

Definition bind {A B} (r : result A) (k : A → result B) : result B :=
  match r with
  | Ok a => k a
  | Raise e => Raise e
  end.

(** a loop whose body can raise: the first exception ends it *)
Section Fold.
Context {A B : Type} (f : A → B → result A).
Fixpoint fold_result (a : A) (l : list B) : result A :=
  match l with
  | [] => Ok a
  | x :: l' =>
      match f a x with
      | Ok a' => fold_result a' l'
      | Raise e => Raise e
      end
  end.
End Fold.

(** [d[key]] on a dictionary whose entry for [key] is [v] *)
Definition getitem {A} (key : string) (v : option A) : result A :=
  match v with
  | Some a => Ok a
  | None => Raise (Exn KeyError ("'" +:+ key +:+ "'"))
  end.

(** [len(s)] *)
Definition len (s : string) : Z := Z.of_nat (String.length s).

(** [s * n] *)
Fixpoint repeat_nat (s : string) (n : nat) : string :=
  match n with
  | O => ""
  | S n' => s +:+ repeat_nat s n'
  end.

Definition str_mul (s : string) (n : Z) : string := repeat_nat s (Z.to_nat n).

(** [sep.join(l)] *)
Fixpoint join (sep : string) (l : list string) : string :=
  match l with
  | [] => ""
  | x :: xs =>
      match xs with
      | [] => x
      | _ :: _ => x +:+ sep +:+ join sep xs
      end
  end.

(** [s.split(c)] for a one-character separator *)
Fixpoint split (c : ascii) (s : string) : list string :=
  match s with
  | EmptyString => [""]
  | String a s' =>
      if decide (a = c) then "" :: split c s'
      else match split c s' with
           | x :: xs => String a x :: xs
           | [] => [String a ""]
           end
  end.

(** [max(xs)] over a sequence: [ValueError] when it is empty *)
Definition max_of (xs : list Z) : result Z :=
  match xs with
  | [] => Raise (Exn ValueError "max() arg is an empty sequence")
  | x :: xs' => Ok (foldl Z.max x xs')
  end.

(** [c.isspace()] on the characters below 256: tab, line feed, vertical
    tab, form feed, carriage return, the four separators 28..31, the space,
    the next-line character 133 and the no-break space 160. *)
Definition isspace (a : ascii) : bool :=
  let n := nat_of_ascii a in
  ((9 <=? n)%nat && (n <=? 13)%nat) || ((28 <=? n)%nat && (n <=? 32)%nat)
  || (n =? 133)%nat || (n =? 160)%nat.

Fixpoint lstrip (s : string) : string :=
  match s with
  | EmptyString => ""
  | String a s' => if isspace a then lstrip s' else s
  end.

Fixpoint rstrip (s : string) : string :=
  match s with
  | EmptyString => ""
  | String a s' =>
      match rstrip s' with
      | EmptyString => if isspace a then "" else String a ""
      | r => String a r
      end
  end.

(** [s.strip()] *)
Definition strip (s : string) : string := rstrip (lstrip s).

(** truth value of a string: non-empty *)
Definition truthy (s : string) : bool :=
  match s with EmptyString => false | _ => true end.

(** [s.startswith(p)] *)
Definition startswith (p s : string) : bool := String.prefix p s.

Definition newline : ascii := ascii_of_nat 10.
Definition nl : string := String newline "".

(** every character is printable ASCII (32..126) *)
Fixpoint printable (s : string) : Prop :=
  match s with
  | EmptyString => True
  | String a s' => (32 ≤ nat_of_ascii a ≤ 126)%nat ∧ printable s'
  end.

(** [s] begins with [p] *)
Definition starts_with (p s : string) : Prop := ∃ rest, s = p +:+ rest.

(** [s] contains [x] *)
Definition mentions (x s : string) : Prop := ∃ before after, s = before +:+ x +:+ after.

Fixpoint no_newline (s : string) : Prop :=
  match s with
  | EmptyString => True
  | String a s' => a ≠ newline ∧ no_newline s'
  end.

End Py.

Import Py.

(** ** The design tree

    A node is a dictionary; the services read its keys [name], [type],
    [children], [style] and [characters], each of which may be absent. *)

Record style_dict : Type := Style { fontFamily : option string }.

#[warnings="-register-all"]
Inductive node : Type :=
  Node {
    node_name : option string;
    node_type : option string;
    node_children : option (list node);
    node_style : option style_dict;
    node_characters : option string
  }.

(** ** [DiagramService]: the layout engine *)

Module DiagramService.

(** [create_ascii_box(text, width=None)] *)
Definition create_ascii_box (text : string) (width : option Z) : list string :=
  let width := match width with
               | None => len text + 4
               | Some w => w
               end in
  let width := Z.max width (len text + 4) in
  let padding := (width - 2 - len text) / 2 in
  let padded_text :=
    str_mul " " padding +:+ text +:+ str_mul " " (width - 2 - len text - padding) in
  let top_line := "+" +:+ str_mul "-" (width - 2) +:+ "+" in
  let middle_line := "|" +:+ padded_text +:+ "|" in
  let bottom_line := "+" +:+ str_mul "-" (width - 2) +:+ "+" in
  [top_line; middle_line; bottom_line].

(** [create_vertical_arrow(width)] *)
Definition create_vertical_arrow (width : Z) : list string :=
  let center := (width - 1) / 2 in
  let spaces := str_mul " " center in
  [spaces +:+ "|"; spaces +:+ "v"].

(** The body of [for i, component in enumerate(components)]: [n] is
    [len(components)], [i] the running index, [diagram_lines] the list the
    loop extends. *)
Fixpoint box_loop (n max_width i : Z) (rest : list string)
    (diagram_lines : list string) : list string :=
  match rest with
  | [] => diagram_lines
  | component :: rest' =>
      let box_lines := create_ascii_box component (Some max_width) in
      let diagram_lines := diagram_lines ++ box_lines in
      let diagram_lines :=
        if i <? n - 1
        then diagram_lines ++ create_vertical_arrow max_width
        else diagram_lines in
      box_loop n max_width (i + 1) rest' diagram_lines
  end.

(** the list [diagram_lines] that [create_box_diagram] joins *)
Definition box_diagram_lines (components : list string) : result (list string) :=
  bind (max_of ((λ comp, len comp + 4) <$> components)) (λ max_width,
    let max_width := Z.max max_width 20 in
    Ok (box_loop (Z.of_nat (length components)) max_width 0 components [])).

(** [create_box_diagram(components)] *)
Definition create_box_diagram (components : list string) : result string :=
  bind (box_diagram_lines components) (λ diagram_lines,
    Ok (join nl diagram_lines)).

(** what the loop has produced when it ends: a box per label and an arrow
    after each label but the last *)
Fixpoint boxes_and_arrows (max_width : Z) (labels : list string) : list string :=
  match labels with
  | [] => []
  | l :: rest =>
      create_ascii_box l (Some max_width)
      ++ match rest with
         | [] => []
         | _ :: _ => create_vertical_arrow max_width ++ boxes_and_arrows max_width rest
         end
  end.

(** the uniform width [max(20, max(len(l) + 4 for l in labels))] *)
Definition uniform_width (labels : list string) : Z :=
  foldr (λ l w, Z.max (len l + 4) w) 20 labels.

(** *** The component name deriver *)

(** a value [json.loads] can return *)
#[warnings="-register-all"]
Inductive pyval : Type :=
| PNone
| PBool (b : bool)
| PInt (z : Z)
| PFloat (q : Q)
| PStr (s : string)
| PList (items : list pyval)
| PDict (entries : list (string * pyval)).

(** [type(v).__name__] *)
Definition type_name (v : pyval) : string :=
  match v with
  | PNone => "NoneType"
  | PBool _ => "bool"
  | PInt _ => "int"
  | PFloat _ => "float"
  | PStr _ => "str"
  | PList _ => "list"
  | PDict _ => "dict"
  end.

(** truth value of a value *)
Definition pytruthy (v : pyval) : bool :=
  match v with
  | PNone => false
  | PBool b => b
  | PInt z => negb (z =? 0)
  | PFloat q => negb (Qeq_bool q 0)
  | PStr s => truthy s
  | PList items => match items with [] => false | _ => true end
  | PDict entries => match entries with [] => false | _ => true end
  end.

(** [v.append(x)]: only a list has the method *)
Definition append (v x : pyval) : result pyval :=
  match v with
  | PList items => Ok (PList (items ++ [x]))
  | _ => Raise (Exn AttributeError
                  ("'" +:+ type_name v +:+ "' object has no attribute 'append'"))
  end.

(** [v[:6]]: a list or a string is sliced, a number, a boolean and [None]
    are not subscriptable, and a dictionary rejects the slice as a key
    ([TypeError] up to Python 3.11). *)
Definition slice6 (v : pyval) : result pyval :=
  match v with
  | PList items => Ok (PList (take 6 items))
  | PStr s => Ok (PStr (substring 0 6 s))
  | PDict _ => Raise (Exn TypeError "unhashable type: 'slice'")
  | _ => Raise (Exn TypeError ("'" +:+ type_name v +:+ "' object is not subscriptable"))
  end.

(** [l[1:-1]] *)
Definition slice_1_m1 {A} (l : list A) : list A :=
  take (length l - 2) (drop 1 l).

(** the response of the model, stripped, and without its first and last
    line when it begins with a code fence *)
Definition clean_response (response : string) : string :=
  let response := strip response in
  if startswith "```" response
  then join nl (slice_1_m1 (split newline response))
  else response.

(** the dictionaries of the AI analysis; every key may be absent *)
Record tech_stack_dict : Type :=
  TechStack {
    frontend : option (list string);
    backend : option (list string);
    database : option string
  }.

Record design_analysis_dict : Type :=
  DesignAnalysis {
    application_type : option string;
    technical_stack_recommendations : option tech_stack_dict;
    key_features : option (list string)
  }.

Record ai_analysis_dict : Type :=
  AiAnalysis { design_analysis : option design_analysis_dict }.

(** the response of the design API: the project name and the root node *)
Record figma_data_dict : Type :=
  FigmaData { figma_name : option string; figma_document : option node }.

(** the double quote character *)
Definition dq : string := String (ascii_of_nat 34) "".

(** the pages: names of the [CANVAS] children of the document *)
Definition pages_of (figma_data : figma_data_dict) : list string :=
  match figma_document figma_data with
  | Some document =>
      match node_children document with
      | Some children =>
          (λ child, default "" (node_name child))
            <$> filter (λ child, node_type child = Some "CANVAS") children
      | None => []
      end
  | None => []
  end.

(** the prompt sent to the language model *)
Definition component_prompt (project_name app_type : string) (pages key_features : list string)
    (tech_stack : tech_stack_dict) : string :=
  nl +:+ "Based on this Figma project analysis, create a list of 4-6 architecture components:" +:+ nl
  +:+ nl
  +:+ "Project: " +:+ project_name +:+ nl
  +:+ "Type: " +:+ app_type +:+ nl
  +:+ "Pages: " +:+ join ", " (take 3 pages) +:+ nl
  +:+ "Features: " +:+ join ", " (take 3 key_features) +:+ nl
  +:+ "Frontend: " +:+ join ", " (take 2 (default [] (frontend tech_stack))) +:+ nl
  +:+ "Backend: " +:+ join ", " (take 2 (default [] (backend tech_stack))) +:+ nl
  +:+ "Database: " +:+ default "" (database tech_stack) +:+ nl
  +:+ nl
  +:+ "Generate a JSON array of component names that represent the architecture flow:" +:+ nl
  +:+ "[" +:+ dq +:+ "Component1" +:+ dq +:+ ", " +:+ dq +:+ "Component2" +:+ dq +:+ ", "
  +:+ dq +:+ "Component3" +:+ dq +:+ ", " +:+ dq +:+ "Component4" +:+ dq +:+ "]" +:+ nl
  +:+ nl
  +:+ "Make them specific to this project. Start with user interaction, then UI layer, then backend services, then data storage." +:+ nl
  +:+ "Respond ONLY with the JSON array." +:+ nl.

(** How the [if self.llm_service:] block ends: with a [return], or by
    falling through with the variable [components] as it then stands and
    the lines it printed. *)
Inductive flow : Type :=
| Return (v : pyval)
| FallThrough (components : pyval) (printed : list string).

Section Deriver.

(** [json.loads], of the standard library *)
Variable json_loads : string → result pyval.

(** [self.llm_service]: absent, or an object whose
    [_generate_completion] answers a prompt or raises *)
Variable llm_service : option (string → result string).

Variable figma_data : figma_data_dict.
Variable ai_analysis : ai_analysis_dict.

Definition project_name : string := default "" (figma_name figma_data).
Definition pages : list string := pages_of figma_data.
Definition the_design_analysis : design_analysis_dict :=
  default (DesignAnalysis None None None) (design_analysis ai_analysis).
Definition app_type : string := default "" (application_type the_design_analysis).
Definition tech_stack : tech_stack_dict :=
  default (TechStack None None None) (technical_stack_recommendations the_design_analysis).
Definition the_key_features : list string := default [] (key_features the_design_analysis).

Definition prompt : string :=
  component_prompt project_name app_type pages the_key_features tech_stack.

(** lines 80-114: the language-model path *)
Definition llm_path : flow :=
  let components := PList [] in
  match llm_service with
  | None => FallThrough components []
  | Some _generate_completion =>
      match _generate_completion prompt with
      | Raise e =>
          FallThrough components ["LLM component generation failed: " +:+ exn_str e]
      | Ok response =>
          let response := clean_response response in
          match json_loads response with
          | Raise _ => FallThrough components []
          | Ok components =>
              match components with
              | PList items =>
                  if (3 <=? length items)%nat
                  then Return (PList (take 6 items))
                  else FallThrough components []
              | _ => FallThrough components []
              end
          end
      end
  end.

(** lines 116-147: the fallback, run on the variable [components] *)
Definition fallback (components : pyval) : result pyval :=
  bind (if truthy app_type
        then append components (PStr (app_type +:+ " User"))
        else Ok components) (λ components,
  bind (match pages with
        | [] => Ok components
        | _ :: _ =>
            fold_result
              (λ components page,
                 if truthy (strip page)
                 then append components (PStr (page +:+ " Interface"))
                 else Ok components)
              components (take 2 pages)
        end) (λ components,
  bind (match frontend tech_stack with
        | Some (first :: _) => append components (PStr (first +:+ " Layer"))
        | _ => Ok components
        end) (λ components,
  bind (match backend tech_stack with
        | Some (first :: _) => append components (PStr (first +:+ " API"))
        | _ => Ok components
        end) (λ components,
  bind (match database tech_stack with
        | Some db =>
            if truthy db && truthy (strip db)
            then append components (PStr db)
            else Ok components
        | None => Ok components
        end) (λ components,
  bind (match the_key_features with
        | first :: _ =>
            if truthy (strip first)
            then append components (PStr (first +:+ " Module"))
            else Ok components
        | [] => Ok components
        end) (λ components,
  let components :=
    if negb (pytruthy components) then
      if truthy project_name
      then PList [PStr (project_name +:+ " System")]
      else PList [PStr "Application"]
    else components in
  slice6 components)))))).

(** [extract_components_from_figma(figma_data, ai_analysis)] *)
Definition extract_components_from_figma : result pyval :=
  match llm_path with
  | Return v => Ok v
  | FallThrough components _ => fallback components
  end.

(** what the call prints *)
Definition extract_components_printed : list string :=
  match llm_path with
  | Return _ => []
  | FallThrough _ printed => printed
  end.

(** The parts of the fallback list as the specification words them:
    each is present or not. *)
Definition part_user : list string :=
  if truthy app_type then [app_type +:+ " User"] else [].

Definition part_pages : list string :=
  (λ page, page +:+ " Interface")
    <$> filter (λ page, truthy (strip page) = true) (take 2 pages).

Definition part_frontend : list string :=
  match frontend tech_stack with
  | Some (first :: _) => [first +:+ " Layer"]
  | _ => []
  end.

Definition part_backend : list string :=
  match backend tech_stack with
  | Some (first :: _) => [first +:+ " API"]
  | _ => []
  end.

Definition part_database : list string :=
  match database tech_stack with
  | Some db => if truthy (strip db) then [db] else []
  | None => []
  end.

Definition part_feature : list string :=
  match the_key_features with
  | first :: _ => if truthy (strip first) then [first +:+ " Module"] else []
  | [] => []
  end.

Definition fallback_parts : list string :=
  part_user ++ part_pages ++ part_frontend ++ part_backend
  ++ part_database ++ part_feature.

(** the one-label list used when there is no part *)
Definition default_labels : list string :=
  if truthy project_name then [project_name +:+ " System"] else ["Application"].

(** the parts in the fixed order, cut to six; the one-label list when
    there is none *)
Definition fallback_labels_spec : list string :=
  match take 6 fallback_parts with
  | [] => default_labels
  | labels => labels
  end.

End Deriver.

(** *** The diagram of a project *)

(** the values a [for] loop visits in a value: the items of a list, the
    characters of a string, the keys of a dictionary *)
Definition iterate (v : pyval) : result (list pyval) :=
  match v with
  | PList items => Ok items
  | PStr s => Ok ((λ c, PStr (String c "")) <$> list_ascii_of_string s)
  | PDict entries => Ok (PStr <$> entries.*1)
  | _ => Raise (Exn TypeError ("'" +:+ type_name v +:+ "' object is not iterable"))
  end.

(** [len(v)] *)
Definition pylen (v : pyval) : result Z :=
  match v with
  | PStr s => Ok (len s)
  | PList items => Ok (Z.of_nat (length items))
  | PDict entries => Ok (Z.of_nat (length entries))
  | _ => Raise (Exn TypeError ("object of type '" +:+ type_name v +:+ "' has no len()"))
  end.

(** [create_ascii_box(text, width)] on a value that need not be a string:
    [len(text)] must exist, and [" " * padding + text] needs a string *)
Definition create_ascii_box_dyn (text : pyval) (width : Z) : result (list string) :=
  bind (pylen text) (λ n,
    let width := Z.max width (n + 4) in
    let padding := (width - 2 - n) / 2 in
    match text with
    | PStr s =>
        let padded_text :=
          str_mul " " padding +:+ s +:+ str_mul " " (width - 2 - n - padding) in
        let top_line := "+" +:+ str_mul "-" (width - 2) +:+ "+" in
        let middle_line := "|" +:+ padded_text +:+ "|" in
        let bottom_line := "+" +:+ str_mul "-" (width - 2) +:+ "+" in
        Ok [top_line; middle_line; bottom_line]
    | _ =>
        Raise (Exn TypeError
                 ("can only concatenate str (not " +:+ dq +:+ type_name text +:+ dq
                  +:+ ") to str"))
    end).

(** the loop of [create_box_diagram] on values *)
Fixpoint box_loop_dyn (n max_width i : Z) (rest : list pyval)
    (diagram_lines : list string) : result (list string) :=
  match rest with
  | [] => Ok diagram_lines
  | component :: rest' =>
      bind (create_ascii_box_dyn component max_width) (λ box_lines,
        let diagram_lines := diagram_lines ++ box_lines in
        let diagram_lines :=
          if i <? n - 1
          then diagram_lines ++ create_vertical_arrow max_width
          else diagram_lines in
        box_loop_dyn n max_width (i + 1) rest' diagram_lines)
  end.

(** [create_box_diagram(components)] on the value the deriver returned *)
Definition create_box_diagram_dyn (components : pyval) : result string :=
  bind (iterate components) (λ items,
  bind (fold_result (λ widths comp, bind (pylen comp) (λ n, Ok (widths ++ [n + 4])))
          [] items) (λ widths,
  bind (max_of widths) (λ max_width,
    let max_width := Z.max max_width 20 in
    bind (pylen components) (λ n,
    bind (box_loop_dyn n max_width 0 items []) (λ diagram_lines,
      Ok (join nl diagram_lines)))))).

Section Generator.

Variable json_loads : string → result pyval.
Variable llm_service : option (string → result string).
Variable figma_data : figma_data_dict.
Variable ai_analysis : ai_analysis_dict.

(** [generate_ascii_diagram(figma_data, ai_analysis)] *)
Definition generate_ascii_diagram : result string :=
  bind (extract_components_from_figma json_loads llm_service figma_data ai_analysis)
       create_box_diagram_dyn.


(** [generate_architecture_diagram(figma_link, figma_data, ai_analysis)]:
    the diagram, the link is not used *)
Definition generate_architecture_diagram (figma_link : string) : result string :=
  generate_ascii_diagram.

End Generator.

End DiagramService.

(** ** [FigmaService]: the tree extractor and the dictionary normalizer *)

Module FigmaService.

(** [extract_fonts(node, fonts=None)]: the set [fonts] is threaded through
    the recursive calls, which all add to the same set. *)
Fixpoint extract_fonts (node : node) (fonts : option (gset string)) : gset string :=
  match node with
  | Node _ type children style _ =>
      let fonts := default ∅ fonts in
      let fonts :=
        match children with
        | Some cs => foldl (λ fonts child, extract_fonts child (Some fonts)) fonts cs
        | None => fonts
        end in
      if decide (type = Some "TEXT") then
        match style with
        | Some st =>
            match fontFamily st with
            | Some font_family =>
                if truthy font_family then {[font_family]} ∪ fonts else fonts
            | None => fonts
            end
        | None => fonts
        end
      else fonts
  end.

(** [extract_texts(node, texts=None)] *)
Fixpoint extract_texts (node : node) (texts : option (list string)) : list string :=
  match node with
  | Node _ type children _ characters =>
      let texts := default [] texts in
      let texts :=
        match children with
        | Some cs => foldl (λ texts child, extract_texts child (Some texts)) texts cs
        | None => texts
        end in
      if decide (type = Some "TEXT") then
        match characters with
        | Some c => texts ++ [c]
        | None => texts
        end
      else texts
  end.

(** an entry of the [components] or [styles] dictionary of the API *)
Record details : Type := Details { details_name : option string }.

(** the entry of an item has a [name] *)
Definition named (item : string * details) : Prop := is_Some (details_name item.2).

(** [{id: details['name'] for id, details in d.items()}]: the entries are
    visited in turn, the first missing [name] raises. *)
Definition comprehension (items : list (string * details)) : result (gmap string string) :=
  fold_result
    (λ acc item, bind (getitem "name" (details_name item.2))
                      (λ name, Ok (<[item.1 := name]> acc)))
    ∅ items.

(** [extract_components(components_dict)] *)
Definition extract_components (components_dict : gmap string details)
    : result (gmap string string) :=
  comprehension (map_to_list components_dict).

(** [extract_styles(styles_dict)] *)
Definition extract_styles (styles_dict : gmap string details)
    : result (gmap string string) :=
  comprehension (map_to_list styles_dict).

(** [get_project_structure(node, level=0)] *)
Fixpoint get_project_structure (node : node) (level : Z) : result string :=
  match node with
  | Node name type children _ _ =>
      bind (getitem "name" name) (λ name,
      bind (getitem "type" type) (λ type,
        let struct := str_mul "  " level +:+ name +:+ " (" +:+ type +:+ ")" +:+ nl in
        match children with
        | Some cs =>
            fold_result
              (λ struct child,
                 bind (get_project_structure child (level + 1))
                      (λ s, Ok (struct +:+ s)))
              struct cs
        | None => Ok struct
        end))
  end.

(** all the nodes of a tree, children before their parent *)
Fixpoint postorder (n : node) : list node :=
  match n with
  | Node _ _ children _ _ =>
      match children with
      | Some cs => concat (map postorder cs)
      | None => []
      end ++ [n]
  end.

(** the font a single node contributes *)
Definition font_of (n : node) : option string :=
  if decide (node_type n = Some "TEXT") then
    st ← node_style n;
    f ← fontFamily st;
    if truthy f then Some f else None
  else None.

(** the text a single node contributes *)
Definition text_of (n : node) : option string :=
  if decide (node_type n = Some "TEXT") then node_characters n else None.

(** [get_features(document)]: the comprehension reads [child['type']] in
    its condition, then [child['name']] *)
Definition get_features (document : node) : result (list string) :=
  fold_result
    (λ features child,
       bind (getitem "type" (node_type child)) (λ type,
         if decide (type = "CANVAS")
         then bind (getitem "name" (node_name child)) (λ name, Ok (features ++ [name]))
         else Ok features))
    [] (default [] (node_children document)).

(** the line of a node in the hierarchy dump, for a node that has a name
    and a type *)
Definition outline_line (level : Z) (n : node) : string :=
  str_mul "  " level +:+ default "" (node_name n) +:+ " (" +:+ default "" (node_type n)
  +:+ ")" +:+ nl.

(** the lines of the hierarchy dump: a node, then its children one level
    deeper *)
Fixpoint outline_lines (level : Z) (n : node) : list string :=
  outline_line level n
  :: match n with
     | Node _ _ children _ _ =>
         match children with
         | Some cs => concat (map (outline_lines (level + 1)) cs)
         | None => []
         end
     end.

(** the strings of a list, one after the other *)
Definition concat_strings (l : list string) : string := foldr String.append "" l.

(** a node that has both a name and a type *)
Definition labelled (n : node) : Prop := is_Some (node_name n) ∧ is_Some (node_type n).

(** [l.index(x)], for an [x] that is in [l] *)
Fixpoint index_of (x : string) (l : list string) : nat :=
  match l with
  | [] => 0
  | y :: l' => if decide (y = x) then 0 else S (index_of x l')
  end.

(** the part that follows the first [marker], as the three blocks of
    [parse_figma_key] look for it *)
Definition key_after (marker : string) (path_parts : list string) : option string :=
  if decide (marker ∈ path_parts) then
    let marker_index := index_of marker path_parts in
    if (marker_index + 1 <? length path_parts)%nat
    then path_parts !! (marker_index + 1)%nat
    else None
  else None.

Definition invalid_link : exn :=
  Exn ValueError "Invalid Figma link format. Expected format: https://www.figma.com/file/{key}/..., https://www.figma.com/design/{key}/..., or https://www.figma.com/make/{key}/...".

(** [parse_figma_key(link)]; [url_path link] is [urlparse(link).path], of
    the standard library *)
Definition parse_figma_key (url_path : string → string) (link : string) : result string :=
  let path_parts := split "/"%char (url_path link) in
  match key_after "file" path_parts with
  | Some key => Ok key
  | None =>
      match key_after "design" path_parts with
      | Some key => Ok key
      | None =>
          match key_after "make" path_parts with
          | Some key => Ok key
          | None => Raise invalid_link
          end
      end
  end.

(** the string has no character [c] *)
Fixpoint lacks (c : ascii) (s : string) : Prop :=
  match s with
  | EmptyString => True
  | String a s' => a ≠ c ∧ lacks c s'
  end.

End FigmaService.

(** ** [PDFService]: the step flow generator *)

Module PDFService.

Definition setup_steps : list string :=
  [ "Step 1: Set up the development environment - Install Python, required libraries (Streamlit, FastAPI, SQLAlchemy, etc.).";
    "Step 2: Initialize the project structure - Create directories for frontend (Streamlit app) and backend (FastAPI server)." ].

Definition closing_steps : list string :=
  [ "Step N: Integrate frontend with backend via API calls.";
    "Step N+1: Set up database (SQLite) and connect to backend.";
    "Step N+2: Test the application end-to-end.";
    "Step N+3: Deploy the application (e.g., to Heroku or Vercel)." ].

Definition frontend_step (i : Z) (feature : string) : string :=
  "Step " +:+ pretty i +:+ ": Implement the '" +:+ feature +:+
  "' feature in the frontend using Streamlit components (e.g., buttons, forms based on Figma design).".

Definition backend_step (i : Z) (feature : string) : string :=
  "Step " +:+ pretty i +:+ ".1: Add corresponding backend endpoints in FastAPI for '" +:+
  feature +:+ "' (e.g., API routes for data handling).".

(** [for i, feature in enumerate(features, start=...)], appending twice *)
Fixpoint feature_loop (i : Z) (features : list string) (steps : list string) : list string :=
  match features with
  | [] => steps
  | feature :: rest =>
      let steps := steps ++ [frontend_step i feature] in
      let steps := steps ++ [backend_step i feature] in
      feature_loop (i + 1) rest steps
  end.

(** the steps of the features, numbered from [i] on *)
Fixpoint feature_steps (i : Z) (features : list string) : list string :=
  match features with
  | [] => []
  | feature :: rest =>
      frontend_step i feature :: backend_step i feature :: feature_steps (i + 1) rest
  end.

(** [generate_step_by_step_flow(features)] *)
Definition generate_step_by_step_flow (features : list string) : list string :=
  let steps := setup_steps in
  let steps := feature_loop 3 features steps in
  steps ++ closing_steps.

(** [s.split()]: the maximal runs of characters that are not whitespace;
    [current] is the run being read *)
Fixpoint words_from (s : string) (current : string) : list string :=
  match s with
  | EmptyString => if truthy current then [current] else []
  | String a s' =>
      if isspace a
      then (if truthy current then [current] else []) ++ words_from s' ""
      else words_from s' (current +:+ String a "")
  end.

Definition words (s : string) : list string := words_from s "".

(** lines 275-285 of [generate_pdf]: the strings drawn while the words of a
    long step are laid out, the last line included when it is not empty *)
Fixpoint wrap_loop (words : list string) (line : string) : list string :=
  match words with
  | [] => if truthy line then [line] else []
  | word :: rest =>
      if len (line +:+ word) <? 85
      then wrap_loop rest (line +:+ word +:+ " ")
      else line :: wrap_loop rest ("  " +:+ word +:+ " ")
  end.

(** lines 272-288 of [generate_pdf]: the strings drawn for one step *)
Definition draw_step (step : string) : list string :=
  if 85 <? len step then wrap_loop (words step) "" else [step].

(** [s.replace(old, new)] for a one-character [old] *)
Fixpoint replace_char (old : ascii) (new : string) (s : string) : string :=
  match s with
  | EmptyString => ""
  | String a s' =>
      if decide (a = old)
      then new +:+ replace_char old new s'
      else String a (replace_char old new s')
  end.

(** line 620 of [generate_enhanced_pdf]: a line of the diagram made safe
    for the markup of a paragraph *)
Definition escape_line (line : string) : string :=
  replace_char ">"%char "&gt;"
    (replace_char "<"%char "&lt;" (replace_char "&"%char "&amp;" line)).

(** the same escaping in one pass over the characters *)
Fixpoint escape_chars (s : string) : string :=
  match s with
  | EmptyString => ""
  | String a s' =>
      (if decide (a = "&"%char) then "&amp;"
       else if decide (a = "<"%char) then "&lt;"
       else if decide (a = ">"%char) then "&gt;"
       else String a "")
      +:+ escape_chars s'
  end.

(** a character that is not whitespace, and a string of such characters *)
Fixpoint space_free (s : string) : Prop :=
  match s with
  | EmptyString => True
  | String a s' => isspace a = false ∧ space_free s'
  end.

End PDFService.

(** ** The extractor on a store of objects

    Python passes dictionaries, lists and sets by reference.  To speak about
    what a call changes, the tree is laid out in a store: every node
    dictionary, every [children] list, every [style] dictionary and the
    accumulators [fonts] and [texts] are objects at their own address.  The
    fuel bounds the recursion depth, since a store can hold a cyclic
    structure. *)

Module Heap.

Abbreviation loc := positive.

Record node_obj : Type :=
  NodeObj {
    obj_name : option string;
    obj_type : option string;
    obj_children : option loc;
    obj_style : option loc;
    obj_characters : option string
  }.

Inductive obj : Type :=
| ONode (d : node_obj)
| OChildren (items : list loc)
| OStyle (st : style_dict)
| OSet (s : gset string)
| OList (l : list string).

Abbreviation heap := (gmap loc obj).

Inductive outcome (A : Type) : Type :=
| Val (a : A) (h : heap)
| Exc (e : exn) (h : heap)
| OutOfFuel.
Arguments Val {A} a h.
Arguments Exc {A} e h.
Arguments OutOfFuel {A}.

Definition M (A : Type) : Type := heap → outcome A.

Definition ret {A} (a : A) : M A := λ h, Val a h.

Definition seq {A B} (m : M A) (k : A → M B) : M B :=
  λ h, match m h with
       | Val a h' => k a h'
       | Exc e h' => Exc e h'
       | OutOfFuel => OutOfFuel
       end.

Definition raise {A} (e : exn) : M A := λ h, Exc e h.

Definition out_of_fuel {A} : M A := λ _, OutOfFuel.

Notation "'let*' x := m 'in' k" := (seq m (λ x, k))
  (at level 10, x name, m at level 100, k at level 200).
Notation "m ;; k" := (seq m (λ _, k))
  (at level 100, k at level 200, right associativity).

Definition not_a (what : string) : exn := Exn TypeError ("not a " +:+ what).

(** reading an object *)
Definition load_node (l : loc) : M node_obj :=
  λ h, match h !! l with
       | Some (ONode d) => Val d h
       | _ => Exc (not_a "node") h
       end.

Definition load_children (l : loc) : M (list loc) :=
  λ h, match h !! l with
       | Some (OChildren items) => Val items h
       | _ => Exc (not_a "list of nodes") h
       end.

Definition load_style (l : loc) : M style_dict :=
  λ h, match h !! l with
       | Some (OStyle st) => Val st h
       | _ => Exc (not_a "style") h
       end.

(** [set()] and [[]]: a new object at an unused address *)
Definition alloc (o : obj) : M loc :=
  λ h, let l := fresh (dom h) in Val l (<[l := o]> h).

(** [fonts.add(x)] *)
Definition set_add (l : loc) (x : string) : M unit :=
  λ h, match h !! l with
       | Some (OSet s) => Val tt (<[l := OSet ({[x]} ∪ s)]> h)
       | _ => Exc (Exn AttributeError "no attribute 'add'") h
       end.

(** [texts.append(x)] *)
Definition list_append (l : loc) (x : string) : M unit :=
  λ h, match h !! l with
       | Some (OList xs) => Val tt (<[l := OList (xs ++ [x])]> h)
       | _ => Exc (Exn AttributeError "no attribute 'append'") h
       end.

(** [d[key]] *)
Definition item {A} (key : string) (v : option A) : M A :=
  match getitem key v with
  | Ok a => ret a
  | Raise e => raise e
  end.

Section Loops.
Context {A B : Type}.

(** [for x in l: f(x)] *)
Fixpoint for_each (f : B → M unit) (l : list B) : M unit :=
  match l with
  | [] => ret tt
  | x :: l' => f x ;; for_each f l'
  end.

(** [for x in l: a = f(a, x)] *)
Fixpoint fold_each (f : A → B → M A) (a : A) (l : list B) : M A :=
  match l with
  | [] => ret a
  | x :: l' => let* a' := f a x in fold_each f a' l'
  end.
End Loops.

(** [extract_fonts(node, fonts=None)] *)
Fixpoint extract_fonts (fuel : nat) (node : loc) (fonts : option loc) : M loc :=
  match fuel with
  | O => out_of_fuel
  | S fuel =>
      let* fonts := match fonts with
                    | None => alloc (OSet ∅)
                    | Some l => ret l
                    end in
      let* d := load_node node in
      match obj_children d with
      | Some cl =>
          let* children := load_children cl in
          for_each (λ child, extract_fonts fuel child (Some fonts) ;; ret tt) children
      | None => ret tt
      end ;;
      (if decide (obj_type d = Some "TEXT") then
         match obj_style d with
         | Some sl =>
             let* st := load_style sl in
             match fontFamily st with
             | Some font_family =>
                 if truthy font_family then set_add fonts font_family else ret tt
             | None => ret tt
             end
         | None => ret tt
         end
       else ret tt) ;;
      ret fonts
  end.

(** [extract_texts(node, texts=None)] *)
Fixpoint extract_texts (fuel : nat) (node : loc) (texts : option loc) : M loc :=
  match fuel with
  | O => out_of_fuel
  | S fuel =>
      let* texts := match texts with
                    | None => alloc (OList [])
                    | Some l => ret l
                    end in
      let* d := load_node node in
      match obj_children d with
      | Some cl =>
          let* children := load_children cl in
          for_each (λ child, extract_texts fuel child (Some texts) ;; ret tt) children
      | None => ret tt
      end ;;
      (if decide (obj_type d = Some "TEXT") then
         match obj_characters d with
         | Some c => list_append texts c
         | None => ret tt
         end
       else ret tt) ;;
      ret texts
  end.

(** [get_project_structure(node, level=0)] *)
Fixpoint get_project_structure (fuel : nat) (node : loc) (level : Z) : M string :=
  match fuel with
  | O => out_of_fuel
  | S fuel =>
      let* d := load_node node in
      let* name := item "name" (obj_name d) in
      let* type := item "type" (obj_type d) in
      let struct := str_mul "  " level +:+ name +:+ " (" +:+ type +:+ ")" +:+ nl in
      match obj_children d with
      | Some cl =>
          let* children := load_children cl in
          fold_each
            (λ struct child,
               let* s := get_project_structure fuel child (level + 1) in
               ret (struct +:+ s))
            struct children
      | None => ret struct
      end
  end.

(** the [style] key of a node: absent, or the address of a style
    dictionary *)
Definition repr_style (h : heap) (sl : option loc) (style : option style_dict) : Prop :=
  match style, sl with
  | None, None => True
  | Some st, Some s => h !! s = Some (OStyle st)
  | _, _ => False
  end.

(** [repr h l t]: in the store [h] the object at [l] is the root of a
    layout of the tree [t]. *)
#[warnings="-register-all"]
Inductive repr (h : heap) : loc → node → Prop :=
| repr_leaf l name type style characters sl :
    h !! l = Some (ONode (NodeObj name type None sl characters)) →
    repr_style h sl style →
    repr h l (Node name type None style characters)
| repr_inner l name type cs style characters cl ls sl :
    h !! l = Some (ONode (NodeObj name type (Some cl) sl characters)) →
    h !! cl = Some (OChildren ls) →
    Forall2 (repr h) ls cs →
    repr_style h sl style →
    repr h l (Node name type (Some cs) style characters).

(** every object of [h] is in [h'], unchanged *)
Definition preserved (h h' : heap) : Prop :=
  ∀ x o, h !! x = Some o → h' !! x = Some o.

(** [h'] differs from [h] at most at the address [a] *)
Definition touches (a : loc) (h h' : heap) : Prop :=
  ∀ x, x ≠ a → h' !! x = h !! x.

(** a computation that writes at most at [a], whether it returns or raises *)
Definition framed {A} (a : loc) (m : M A) : Prop :=
  ∀ h, match m h with
       | Val _ h' | Exc _ h' => touches a h h'
       | OutOfFuel => True
       end.

(** a computation that writes nothing, whether it returns or raises *)
Definition read_only {A} (m : M A) : Prop :=
  ∀ h, match m h with
       | Val _ h' | Exc _ h' => h' = h
       | OutOfFuel => True
       end.

(** the store an outcome leaves *)
Definition store_of {A} (out : outcome A) : option heap :=
  match out with
  | Val _ h' | Exc _ h' => Some h'
  | OutOfFuel => None
  end.

(** the depth of a tree: the fuel a traversal needs *)
Fixpoint depth (t : node) : nat :=
  match t with
  | Node _ _ children _ _ =>
      S (match children with
         | Some cs => foldr (λ c d, Nat.max (depth c) d) O cs
         | None => O
         end)
  end.

(** the result of a call as an outcome on the store *)
Definition lift {A} (r : result A) : M A :=
  match r with
  | Ok a => ret a
  | Raise e => raise e
  end.

End Heap.

(** ** [GroqService]: cleaning a response of the model *)

Module GroqService.

(** [s.endswith(p)] *)
Fixpoint endswith (p s : string) : bool :=
  if decide (s = p) then true
  else match s with
       | EmptyString => false
       | String _ s' => endswith p s'
       end.

(** [s[n:]] *)
Definition drop_chars (n : nat) (s : string) : string :=
  substring n (String.length s - n) s.

(** [s[:-n]], for [n > 0] *)
Definition drop_last (n : nat) (s : string) : string :=
  substring 0 (String.length s - n) s.

(** The text given to [json.loads] in [analyze_design_structure],
    [analyze_pages_and_routes], [generate_feature_specifications] and
    [generate_implementation_guide], which all clean the response with the
    same five lines. *)
Definition clean_json_response (response_text : string) : string :=
  let response_text := strip response_text in
  let response_text :=
    if startswith "```json" response_text then drop_chars 7 response_text
    else response_text in
  let response_text :=
    if startswith "```" response_text then drop_chars 3 response_text
    else response_text in
  let response_text :=
    if endswith "```" response_text then drop_last 3 response_text
    else response_text in
  strip response_text.

End GroqService.

(** ** Inputs used in the examples *)

Module Samples.

Import DiagramService.

Definition canvas (name : string) : node :=
  Node (Some name) (Some "CANVAS") None None None.

(** a file with the pages [Home] and [Settings] *)
Definition dashboard_data : figma_data_dict :=
  FigmaData (Some "Shop")
    (Some (Node (Some "Document") (Some "DOCUMENT")
             (Some [canvas "Home"; canvas "Settings"]) None None)).

(** an analysis with the application type [Dashboard], no technical stack
    and no features *)
Definition dashboard_analysis : ai_analysis_dict :=
  AiAnalysis (Some (DesignAnalysis (Some "Dashboard") None None)).

(** the response text [["A", "B"]] *)
Definition two_items : string :=
  "[" +:+ dq +:+ "A" +:+ dq +:+ ", " +:+ dq +:+ "B" +:+ dq +:+ "]".

(** the response text [{}] *)
Definition empty_object : string := "{}".

(** the response text [["UI", "API", "DB"]], and the same inside a code
    fence *)
Definition three_items : string :=
  "[" +:+ dq +:+ "UI" +:+ dq +:+ ", " +:+ dq +:+ "API" +:+ dq +:+ ", "
  +:+ dq +:+ "DB" +:+ dq +:+ "]".

Definition three_items_fenced : string :=
  "```json" +:+ nl +:+ three_items +:+ nl +:+ "```" +:+ nl.

(** [json.loads] on the response texts above; any other text is taken as
    one it rejects. *)
Definition json_loads_sample (s : string) : result pyval :=
  if decide (s = two_items) then Ok (PList [PStr "A"; PStr "B"])
  else if decide (s = empty_object) then Ok (PDict [])
  else if decide (s = three_items) then Ok (PList [PStr "UI"; PStr "API"; PStr "DB"])
  else Raise (Exn ValueError "Expecting value: line 1 column 1 (char 0)").

(** a document with one page that holds a text node, and its layout in a
    store *)
Definition sample_tree : node :=
  Node (Some "Document") (Some "DOCUMENT")
    (Some [Node (Some "Home") (Some "CANVAS")
             (Some [Node (Some "Title") (Some "TEXT") None
                      (Some (Style (Some "Inter"))) (Some "Welcome")])
             None None])
    None None.

Definition sample_store : Heap.heap :=
  {[ 1%positive := Heap.ONode (Heap.NodeObj (Some "Document") (Some "DOCUMENT")
                                 (Some 2%positive) None None);
     2%positive := Heap.OChildren [3%positive];
     3%positive := Heap.ONode (Heap.NodeObj (Some "Home") (Some "CANVAS")
                                 (Some 4%positive) None None);
     4%positive := Heap.OChildren [5%positive];
     5%positive := Heap.ONode (Heap.NodeObj (Some "Title") (Some "TEXT") None
                                 (Some 6%positive) (Some "Welcome"));
     6%positive := Heap.OStyle (Style (Some "Inter")) ]}.

(** a store whose root node names a [children] list that is not there *)
Definition broken_store : Heap.heap :=
  {[ 1%positive := Heap.ONode (Heap.NodeObj (Some "Document") (Some "DOCUMENT")
                                 (Some 2%positive) None None) ]}.




End Samples.

(** * Properties *)

(** ** Strings *)

Section StringFacts.

Lemma length_append (a b : string) :
  String.length (a +:+ b) = (String.length a + String.length b)%nat.
Proof. induction a as [|c a IH]; simpl; [done | by rewrite IH]. Qed.

Lemma len_append (a b : string) : len (a +:+ b) = len a + len b.
Proof. unfold len. rewrite length_append. lia. Qed.

Lemma len_nonneg (s : string) : 0 ≤ len s.
Proof. unfold len. lia. Qed.

Lemma length_repeat_nat (s : string) (n : nat) :
  String.length (repeat_nat s n) = (n * String.length s)%nat.
Proof. induction n as [|n IH]; simpl; [done | rewrite length_append, IH; lia]. Qed.

Lemma len_str_mul_char (c : ascii) (n : Z) :
  len (str_mul (String c "") n) = Z.max 0 n.
Proof. unfold len, str_mul. rewrite length_repeat_nat. simpl. lia. Qed.

Lemma no_newline_append (a b : string) :
  no_newline (a +:+ b) ↔ no_newline a ∧ no_newline b.
Proof. induction a as [|c a IH]; simpl; tauto. Qed.

Lemma no_newline_repeat (s : string) (n : nat) :
  no_newline s → no_newline (repeat_nat s n).
Proof.
  intros Hs. induction n as [|n IH]; simpl; [done |].
  apply no_newline_append. done.
Qed.

Lemma printable_no_newline (s : string) : printable s → no_newline s.
Proof.
  induction s as [|c s IH]; simpl; [done |].
  intros [Hc Hs]. split; [| by apply IH].
  intros ->. vm_compute in Hc. lia.
Qed.

Lemma split_no_newline (s : string) : no_newline s → split newline s = [s].
Proof.
  induction s as [|c s IH]; [done |].
  intros [Hc Hs]. cbn [split]. rewrite decide_False by done. by rewrite IH.
Qed.

Lemma split_append_nl (a b : string) :
  no_newline a → split newline (a +:+ nl +:+ b) = a :: split newline b.
Proof.
  induction a as [|c a IH].
  - intros _. change (split newline (String newline b) = "" :: split newline b).
    cbn [split]. by rewrite decide_True.
  - intros [Hc Ha]. change (split newline (String c (a +:+ nl +:+ b)) = String c a :: split newline b).
    cbn [split]. rewrite decide_False by done. by rewrite IH.
Qed.

(** splitting a joined list of newline-free lines gives the lines back *)
Lemma split_join (ls : list string) :
  ls ≠ [] → Forall no_newline ls → split newline (join nl ls) = ls.
Proof.
  induction ls as [|x ls IH]; [done |].
  intros _ Hall. apply Forall_cons in Hall as [Hx Hls].
  destruct ls as [|y ls].
  - simpl. by apply split_no_newline.
  - change (join nl (x :: y :: ls)) with (x +:+ nl +:+ join nl (y :: ls)).
    rewrite split_append_nl by done. f_equal. by apply IH.
Qed.

End StringFacts.

(** ** The layout engine *)

Section Layout.

Import DiagramService.

Lemma box_line_len (text : string) (w : Z) :
  len text + 4 ≤ w →
  Forall (λ line, len line = w) (create_ascii_box text (Some w)).
Proof.
  intros Hw. pose proof (len_nonneg text) as Hn.
  unfold create_ascii_box. rewrite Z.max_l by done.
  repeat constructor; rewrite ?len_append, ?len_str_mul_char;
    change (len "+") with 1; change (len "|") with 1;
    Z.to_euclidean_division_equations; lia.
Qed.

Lemma arrow_line_len (w : Z) :
  1 ≤ w →
  Forall (λ line, len line = (w - 1) / 2 + 1) (create_vertical_arrow w).
Proof.
  intros Hw. unfold create_vertical_arrow.
  repeat constructor; rewrite ?len_append, ?len_str_mul_char;
    change (len "|") with 1; change (len "v") with 1;
    Z.to_euclidean_division_equations; lia.
Qed.

Lemma box_no_newline (text : string) (w : option Z) :
  no_newline text → Forall no_newline (create_ascii_box text w).
Proof.
  intros Ht. unfold create_ascii_box, str_mul.
  repeat constructor; rewrite ?no_newline_append;
    repeat split; try apply no_newline_repeat; try done;
    simpl; (split; [by vm_compute | done]).
Qed.

Lemma arrow_no_newline (w : Z) : Forall no_newline (create_vertical_arrow w).
Proof.
  unfold create_vertical_arrow, str_mul.
  repeat constructor; rewrite ?no_newline_append;
    repeat split; try apply no_newline_repeat; try done;
    simpl; (split; [by vm_compute | done]).
Qed.

(** the loop, started at index [i] on the labels still to come, appends a
    box per label and an arrow after every label but the last *)
Lemma box_loop_closed (n w i : Z) (rest acc : list string) :
  i + Z.of_nat (length rest) = n →
  box_loop n w i rest acc = acc ++ boxes_and_arrows w rest.
Proof.
  revert i acc. induction rest as [|c rest IH]; intros i acc Hn.
  - simpl. by rewrite app_nil_r.
  - cbn [box_loop boxes_and_arrows]. rewrite IH by (simpl in Hn; lia).
    destruct rest as [|c' rest].
    + simpl in Hn. replace (i <? n - 1) with false by (symmetry; apply Z.ltb_ge; lia).
      simpl. by rewrite !app_nil_r.
    + simpl in Hn. replace (i <? n - 1) with true by (symmetry; apply Z.ltb_lt; lia).
      by rewrite <- !app_assoc.
Qed.

Lemma foldl_max_foldr (a c : Z) (xs : list Z) :
  Z.max (foldl Z.max a xs) c = Z.max a (foldr Z.max c xs).
Proof.
  revert a. induction xs as [|x xs IH]; intros a; simpl; [done |].
  rewrite IH. lia.
Qed.

Lemma uniform_width_foldr (labels : list string) :
  uniform_width labels = foldr Z.max 20 ((λ comp, len comp + 4) <$> labels).
Proof.
  induction labels as [|l labels IH]; [done |].
  change (Z.max (len l + 4) (uniform_width labels)
          = Z.max (len l + 4) (foldr Z.max 20 ((λ comp, len comp + 4) <$> labels))).
  by rewrite IH.
Qed.

(** the width the code computes is the uniform width *)
Lemma box_diagram_lines_closed (l : string) (labels : list string) :
  box_diagram_lines (l :: labels)
  = Ok (boxes_and_arrows (uniform_width (l :: labels)) (l :: labels)).
Proof.
  unfold box_diagram_lines. cbn [fmap list_fmap max_of bind].
  rewrite foldl_max_foldr, box_loop_closed by lia.
  rewrite uniform_width_foldr. done.
Qed.

Lemma uniform_width_min (labels : list string) : 20 ≤ uniform_width labels.
Proof. induction labels; simpl; lia. Qed.

Lemma uniform_width_fits (labels : list string) :
  Forall (λ l, len l + 4 ≤ uniform_width labels) labels.
Proof.
  induction labels as [|l labels IH]; constructor; simpl; [lia |].
  eapply Forall_impl; [exact IH |]. simpl. lia.
Qed.

Lemma length_boxes_and_arrows (w : Z) (labels : list string) :
  labels ≠ [] →
  (length (boxes_and_arrows w labels) + 2 = 5 * length labels)%nat.
Proof.
  induction labels as [|l labels IH]; [done |]. intros _.
  destruct labels as [|l' labels]; [done |].
  change (boxes_and_arrows w (l :: l' :: labels))
    with (create_ascii_box l (Some w) ++ create_vertical_arrow w
            ++ boxes_and_arrows w (l' :: labels)).
  rewrite !length_app.
  change (length (create_ascii_box l (Some w))) with 3%nat.
  change (length (create_vertical_arrow w)) with 2%nat.
  specialize (IH ltac:(done)). simpl length in *. lia.
Qed.

(** which lines are box lines and which are arrow lines, and their lengths *)
Lemma lookup_boxes_and_arrows (w : Z) (labels : list string) (i : nat) (line : string) :
  1 ≤ w →
  Forall (λ l, len l + 4 ≤ w) labels →
  boxes_and_arrows w labels !! i = Some line →
  len line = if (i mod 5 <? 3)%nat then w else (w - 1) / 2 + 1.
Proof.
  intros Hw. revert i. induction labels as [|l labels IH]; intros i Hfit Hi; [done |].
  apply Forall_cons in Hfit as [Hl Hfit].
  pose proof (box_line_len l w Hl) as Hbox.
  pose proof (arrow_line_len w Hw) as Harrow.
  cbn [boxes_and_arrows] in Hi.
  destruct (decide (i < 3)%nat) as [Hlt | Hge].
  - rewrite lookup_app_l in Hi by (simpl; lia).
    rewrite Nat.mod_small by lia.
    replace (i <? 3)%nat with true by (symmetry; apply Nat.ltb_lt; lia).
    rewrite Forall_lookup in Hbox. eauto.
  - rewrite lookup_app_r in Hi by (simpl; lia).
    change (length (create_ascii_box l (Some w))) with 3%nat in Hi.
    destruct labels as [|l' labels].
    { by rewrite lookup_nil in Hi. }
    destruct (decide (i < 5)%nat) as [Hlt5 | Hge5].
    + rewrite lookup_app_l in Hi by (simpl; lia).
      rewrite Nat.mod_small by lia.
      replace (i <? 3)%nat with false by (symmetry; apply Nat.ltb_ge; lia).
      rewrite Forall_lookup in Harrow. eauto.
    + rewrite lookup_app_r in Hi by (simpl; lia).
      change (length (create_vertical_arrow w)) with 2%nat in Hi.
      replace (i mod 5)%nat with ((i - 3 - 2) mod 5)%nat.
      * by apply IH.
      * replace i with ((i - 3 - 2) + 1 * 5)%nat at 2 by lia.
        by rewrite Nat.Div0.mod_add.
Qed.

Lemma boxes_and_arrows_no_newline (w : Z) (labels : list string) :
  Forall no_newline labels → Forall no_newline (boxes_and_arrows w labels).
Proof.
  induction labels as [|l labels IH]; intros Hall; [constructor |].
  apply Forall_cons in Hall as [Hl Hall].
  cbn [boxes_and_arrows]. apply Forall_app. split; [by apply box_no_newline |].
  destruct labels; [constructor |].
  apply Forall_app. split; [apply arrow_no_newline | by apply IH].
Qed.

Lemma boxes_and_arrows_nonempty (w : Z) (labels : list string) :
  labels ≠ [] → boxes_and_arrows w labels ≠ [].
Proof. destruct labels; done. Qed.

(** the lines of the diagram string are the lines the loop produced *)
Lemma create_box_diagram_split (l : string) (labels : list string) :
  Forall no_newline (l :: labels) →
  ∃ s, create_box_diagram (l :: labels) = Ok s
       ∧ split newline s = boxes_and_arrows (uniform_width (l :: labels)) (l :: labels).
Proof.
  intros Hall. unfold create_box_diagram. rewrite box_diagram_lines_closed.
  eexists. split; [done |].
  apply split_join; [by apply boxes_and_arrows_nonempty |].
  by apply boxes_and_arrows_no_newline.
Qed.

End Layout.

Section LayoutClaims.

Import DiagramService.

(** C3.  For every text and every width argument, [create_ascii_box]
    returns three lines.  The effective width [w] is [len(text) + 4] when
    no width is given and the larger of the given width and
    [len(text) + 4] otherwise.  The first and third lines are ["+"],
    [w - 2] dashes, ["+"].  The middle line is ["|"], [pad] spaces, the
    text, the remaining spaces, ["|"], with [pad = (w - 2 - len(text)) // 2];
    the interior is exactly [w - 2] columns and the right side gets the
    odd column ([pad <= rest <= pad + 1]).  Every line is [w] long, and
    [create_ascii_box("OK", width=10)] is
    [["+--------+", "|   OK   |", "+--------+"]]. *)
Theorem create_ascii_box_layout (text : string) (width : option Z) :
  let w := match width with
           | None => len text + 4
           | Some given => Z.max given (len text + 4)
           end in
  let pad := (w - 2 - len text) / 2 in
  let rest := w - 2 - len text - pad in
  create_ascii_box text width =
    [ "+" +:+ str_mul "-" (w - 2) +:+ "+";
      "|" +:+ (str_mul " " pad +:+ text +:+ str_mul " " rest) +:+ "|";
      "+" +:+ str_mul "-" (w - 2) +:+ "+" ]
  ∧ len (str_mul " " pad) = pad
  ∧ len (str_mul " " rest) = rest
  ∧ pad + len text + rest = w - 2
  ∧ pad ≤ rest ≤ pad + 1
  ∧ Forall (λ line, len line = w) (create_ascii_box text width)
  ∧ create_ascii_box "OK" (Some 10) = ["+--------+"; "|   OK   |"; "+--------+"].
Proof.
  intros w pad rest. pose proof (len_nonneg text) as Hn.
  assert (Hw : len text + 4 ≤ w) by (subst w; destruct width; lia).
  assert (Hbox : create_ascii_box text width = create_ascii_box text (Some w)).
  { unfold create_ascii_box. subst w. destruct width as [given|].
    - by rewrite (Z.max_l (Z.max _ _)) by lia.
    - done. }
  split.
  { rewrite Hbox. unfold create_ascii_box. rewrite Z.max_l by done. done. }
  split; [rewrite len_str_mul_char; subst pad; Z.to_euclidean_division_equations; lia |].
  split; [rewrite len_str_mul_char; subst rest pad; Z.to_euclidean_division_equations; lia |].
  split; [subst rest; lia |].
  split; [subst rest pad; Z.to_euclidean_division_equations; lia |].
  split; [rewrite Hbox; by apply box_line_len | done].
Qed.

(** C1, as the code has it.  For every list of 1 to 6 labels of printable
    ASCII, [create_box_diagram] returns a string whose lines, split on
    newlines, number [3*n + 2*(n-1)]: three box lines per label and two
    arrow lines between adjacent labels.  The box lines (the first three
    of every group of five) are as long as the uniform width
    [max(20, max(len(label) + 4))]; the arrow lines are not padded and are
    [(width - 1) // 2 + 1] long. *)
Theorem create_box_diagram_lines (labels : list string) :
  (1 ≤ length labels ≤ 6)%nat →
  Forall printable labels →
  ∃ s, create_box_diagram labels = Ok s
    ∧ Z.of_nat (length (split newline s))
      = 3 * Z.of_nat (length labels) + 2 * (Z.of_nat (length labels) - 1)
    ∧ ∀ (i : nat) (line : string),
        split newline s !! i = Some line →
        len line = if (i mod 5 <? 3)%nat
                   then uniform_width labels
                   else (uniform_width labels - 1) / 2 + 1.
Proof.
  intros Hlen Hprint.
  destruct labels as [|l labels]; [simpl in Hlen; lia |].
  assert (Hnl : Forall no_newline (l :: labels)).
  { eapply Forall_impl; [exact Hprint | apply printable_no_newline]. }
  destruct (create_box_diagram_split l labels Hnl) as (s & Hs & Hsplit).
  exists s. split; [done |]. rewrite Hsplit. split.
  - pose proof (length_boxes_and_arrows (uniform_width (l :: labels)) (l :: labels)
                  ltac:(done)). lia.
  - intros i line Hi. eapply lookup_boxes_and_arrows; [| | exact Hi].
    + pose proof (uniform_width_min (l :: labels)). lia.
    + apply uniform_width_fits.
Qed.

Lemma create_box_diagram_lines_witness :
  ∃ s, create_box_diagram ["Client"; "Server"] = Ok s
    ∧ Z.of_nat (length (split newline s)) = 3 * 2 + 2 * (2 - 1)
    ∧ ∀ (i : nat) (line : string),
        split newline s !! i = Some line →
        len line = if (i mod 5 <? 3)%nat
                   then uniform_width ["Client"; "Server"]
                   else (uniform_width ["Client"; "Server"] - 1) / 2 + 1.
Proof.
  apply (create_box_diagram_lines ["Client"; "Server"]).
  - simpl. lia.
  - repeat constructor; vm_compute; lia.
Defined.

(** C1 fails as stated: with the labels ["A"] and ["B"] the uniform width
    is 20, and the fourth line of the diagram, the shaft of the arrow, is
    10 characters long. *)
Lemma create_box_diagram_arrow_shorter :
  ∃ s line,
    create_box_diagram ["A"; "B"] = Ok s
    ∧ split newline s !! 3%nat = Some line
    ∧ uniform_width ["A"; "B"] = 20
    ∧ len line = 10.
Proof. eexists _, _. repeat split; vm_compute; reflexivity. Qed.

End LayoutClaims.

(** ** The step flow generator *)

Section StepFlow.

Import PDFService.

Lemma append_assoc (a b c : string) : (a +:+ b) +:+ c = a +:+ b +:+ c.
Proof.
  induction a as [|x a IH]; [done |].
  change (String x ((a +:+ b) +:+ c) = String x (a +:+ b +:+ c)). by f_equal.
Qed.

Lemma feature_loop_closed (i : Z) (features steps : list string) :
  feature_loop i features steps = steps ++ feature_steps i features.
Proof.
  revert i steps. induction features as [|f features IH]; intros i steps; simpl.
  - by rewrite app_nil_r.
  - rewrite IH, <- !app_assoc. done.
Qed.

Lemma length_feature_steps (i : Z) (features : list string) :
  length (feature_steps i features) = (2 * length features)%nat.
Proof.
  revert i. induction features as [|f features IH]; intros i; simpl; [done |].
  rewrite IH. lia.
Qed.

Lemma lookup_feature_steps (i : Z) (features : list string) (k : nat) (feature : string) :
  features !! k = Some feature →
  feature_steps i features !! (2 * k)%nat = Some (frontend_step (i + Z.of_nat k) feature)
  ∧ feature_steps i features !! (2 * k + 1)%nat = Some (backend_step (i + Z.of_nat k) feature).
Proof.
  revert i k. induction features as [|f features IH]; intros i k Hk; [done |].
  destruct k as [|k].
  - simpl in Hk. injection Hk as ->. simpl. rewrite Z.add_0_r. done.
  - simpl in Hk. destruct (IH (i + 1) k Hk) as [H1 H2].
    replace (2 * S k)%nat with (S (S (2 * k))) by lia.
    replace (S (S (2 * k)) + 1)%nat with (S (S (2 * k + 1))) by lia.
    cbn [feature_steps lookup list_lookup].
    replace (i + Z.of_nat (S k)) with (i + 1 + Z.of_nat k) by lia. done.
Qed.

Lemma frontend_step_shape (i : Z) (feature : string) :
  starts_with ("Step " +:+ pretty i +:+ ": ") (frontend_step i feature)
  ∧ mentions feature (frontend_step i feature).
Proof.
  split.
  - eexists. unfold frontend_step. rewrite !append_assoc. done.
  - exists ("Step " +:+ pretty i +:+ ": Implement the '"). eexists.
    unfold frontend_step. rewrite !append_assoc. done.
Qed.

Lemma backend_step_shape (i : Z) (feature : string) :
  starts_with ("Step " +:+ pretty i +:+ ".1: ") (backend_step i feature)
  ∧ mentions feature (backend_step i feature).
Proof.
  split.
  - eexists. unfold backend_step. rewrite !append_assoc. done.
  - exists ("Step " +:+ pretty i
            +:+ ".1: Add corresponding backend endpoints in FastAPI for '").
    eexists. unfold backend_step. rewrite !append_assoc. done.
Qed.

(** C6.  For every list of features, [generate_step_by_step_flow] returns
    the two setup steps, then for the feature at 0-based index [k] (number
    [i = k + 3]) a line starting ["Step {i}: "] and a line starting
    ["Step {i}.1: "], both mentioning the feature, then the four closing
    steps with the literal tokens [N], [N+1], [N+2], [N+3]: in all
    [2 + 2 * len(features) + 4] entries. *)
Theorem generate_step_by_step_flow_shape (features : list string) :
  let steps := generate_step_by_step_flow features in
  steps = setup_steps ++ feature_steps 3 features ++ closing_steps
  ∧ length steps = (2 + 2 * length features + 4)%nat
  ∧ take 2 steps =
      [ "Step 1: Set up the development environment - Install Python, required libraries (Streamlit, FastAPI, SQLAlchemy, etc.).";
        "Step 2: Initialize the project structure - Create directories for frontend (Streamlit app) and backend (FastAPI server)." ]
  ∧ (∀ (k : nat) (feature : string),
       features !! k = Some feature →
       ∃ a b,
         steps !! (2 + 2 * k)%nat = Some a
         ∧ steps !! (2 + 2 * k + 1)%nat = Some b
         ∧ starts_with ("Step " +:+ pretty (Z.of_nat k + 3) +:+ ": ") a
         ∧ mentions feature a
         ∧ starts_with ("Step " +:+ pretty (Z.of_nat k + 3) +:+ ".1: ") b
         ∧ mentions feature b)
  ∧ drop (2 + 2 * length features) steps =
      [ "Step N: Integrate frontend with backend via API calls.";
        "Step N+1: Set up database (SQLite) and connect to backend.";
        "Step N+2: Test the application end-to-end.";
        "Step N+3: Deploy the application (e.g., to Heroku or Vercel)." ].
Proof.
  intros steps.
  assert (Hsteps : steps = setup_steps ++ feature_steps 3 features ++ closing_steps).
  { subst steps. unfold generate_step_by_step_flow.
    rewrite feature_loop_closed, <- app_assoc. done. }
  split; [done |]. rewrite Hsteps.
  split; [| split; [| split]].
  - rewrite !length_app, length_feature_steps. simpl. lia.
  - done.
  - intros k feature Hk.
    destruct (lookup_feature_steps 3 features k feature Hk) as [Ha Hb].
    pose proof (lookup_lt_Some _ _ _ Hk) as Hlt.
    exists (frontend_step (3 + Z.of_nat k) feature), (backend_step (3 + Z.of_nat k) feature).
    replace (Z.of_nat k + 3) with (3 + Z.of_nat k) by lia.
    split; [| split].
    + change (setup_steps ++ feature_steps 3 features ++ closing_steps)
        with (setup_steps ++ (feature_steps 3 features ++ closing_steps)).
      rewrite lookup_app_r by (simpl; lia).
      rewrite lookup_app_l by (rewrite length_feature_steps; simpl; lia).
      rewrite <- Ha. f_equal. simpl. lia.
    + rewrite lookup_app_r by (simpl; lia).
      rewrite lookup_app_l by (rewrite length_feature_steps; simpl; lia).
      rewrite <- Hb. f_equal. simpl. lia.
    + pose proof (frontend_step_shape (3 + Z.of_nat k) feature).
      pose proof (backend_step_shape (3 + Z.of_nat k) feature). tauto.
  - rewrite app_assoc. rewrite drop_app_length'; [done |].
    rewrite length_app, length_feature_steps. simpl. lia.
Qed.

Lemma generate_step_by_step_flow_shape_witness :
  ∃ a b,
    generate_step_by_step_flow ["Login"] !! 2%nat = Some a
    ∧ generate_step_by_step_flow ["Login"] !! 3%nat = Some b
    ∧ starts_with "Step 3: " a
    ∧ mentions "Login" a
    ∧ starts_with "Step 3.1: " b
    ∧ mentions "Login" b.
Proof.
  apply (proj1 (proj2 (proj2 (proj2 (generate_step_by_step_flow_shape ["Login"]))))
           0%nat "Login").
  reflexivity.
Defined.

Lemma generate_step_by_step_flow_login :
  generate_step_by_step_flow ["Login"] =
    [ "Step 1: Set up the development environment - Install Python, required libraries (Streamlit, FastAPI, SQLAlchemy, etc.).";
      "Step 2: Initialize the project structure - Create directories for frontend (Streamlit app) and backend (FastAPI server).";
      "Step 3: Implement the 'Login' feature in the frontend using Streamlit components (e.g., buttons, forms based on Figma design).";
      "Step 3.1: Add corresponding backend endpoints in FastAPI for 'Login' (e.g., API routes for data handling).";
      "Step N: Integrate frontend with backend via API calls.";
      "Step N+1: Set up database (SQLite) and connect to backend.";
      "Step N+2: Test the application end-to-end.";
      "Step N+3: Deploy the application (e.g., to Heroku or Vercel)." ].
Proof. vm_compute. reflexivity. Qed.

End StepFlow.

(** ** The tree extractor *)

Section TreeExtractor.

Import FigmaService.

(** induction on a tree, with the hypothesis for every child *)
Lemma node_nested_ind (P : node → Prop) :
  (∀ name type children style characters,
      Forall P (default [] children) →
      P (Node name type children style characters)) →
  ∀ n, P n.
Proof.
  intros Hnode. fix IH 1. intros [name type children style characters].
  apply Hnode. destruct children as [cs|]; [| constructor].
  simpl. induction cs as [|c cs IHcs]; constructor; [apply IH | exact IHcs].
Qed.

Lemma fold_extract_texts (cs : list node) (texts : list string) :
  Forall (λ c, ∀ acc, extract_texts c (Some acc) = acc ++ omap text_of (postorder c)) cs →
  foldl (λ texts child, extract_texts child (Some texts)) texts cs
  = texts ++ omap text_of (concat (map postorder cs)).
Proof.
  intros Hcs. revert texts. induction Hcs as [|c cs Hc _ IH]; intros texts; simpl.
  - by rewrite app_nil_r.
  - rewrite IH, Hc, omap_app, app_assoc. done.
Qed.

(** the texts appended to [texts] are those of the nodes in post-order *)
Lemma extract_texts_acc (n : node) :
  ∀ texts, extract_texts n (Some texts) = texts ++ omap text_of (postorder n).
Proof.
  induction n as [name type children style characters IH] using node_nested_ind.
  intros texts. cbn [extract_texts postorder default]. change (id texts) with texts.
  rewrite omap_app. cbn [omap list_omap]. unfold text_of at 2. cbn [node_type node_characters].
  destruct children as [cs|]; simpl in IH.
  - rewrite (fold_extract_texts cs texts IH).
    destruct (decide (type = Some "TEXT")); [destruct characters |];
      simpl; by rewrite ?app_nil_r, ?app_assoc.
  - destruct (decide (type = Some "TEXT")); [destruct characters |];
      simpl; by rewrite ?app_nil_r.
Qed.

Lemma extract_texts_None (n : node) :
  extract_texts n None = extract_texts n (Some []).
Proof. by destruct n. Qed.

Lemma extract_texts_postorder_list (n : node) :
  extract_texts n None = omap text_of (postorder n).
Proof. by rewrite extract_texts_None, extract_texts_acc. Qed.

Lemma fold_extract_fonts (cs : list node) (fonts : gset string) :
  Forall (λ c, ∀ acc, extract_fonts c (Some acc)
                      = acc ∪ list_to_set (omap font_of (postorder c))) cs →
  foldl (λ fonts child, extract_fonts child (Some fonts)) fonts cs
  = fonts ∪ list_to_set (omap font_of (concat (map postorder cs))).
Proof.
  intros Hcs. revert fonts. induction Hcs as [|c cs Hc _ IH]; intros fonts; simpl.
  - set_solver.
  - rewrite IH, Hc, omap_app, list_to_set_app_L. set_solver.
Qed.

(** the fonts added to [fonts] are those of the nodes of the tree *)
Lemma extract_fonts_acc (n : node) :
  ∀ fonts, extract_fonts n (Some fonts) = fonts ∪ list_to_set (omap font_of (postorder n)).
Proof.
  induction n as [name type children style characters IH] using node_nested_ind.
  intros fonts. cbn [extract_fonts postorder default]. change (id fonts) with fonts.
  rewrite omap_app, list_to_set_app_L. cbn [omap list_omap].
  unfold font_of at 2. cbn [node_type node_style].
  assert (Hfold :
    match children with
    | Some cs => foldl (λ fonts child, extract_fonts child (Some fonts)) fonts cs
    | None => fonts
    end = fonts ∪ list_to_set (omap font_of
                     match children with
                     | Some cs => concat (map postorder cs)
                     | None => []
                     end)).
  { destruct children as [cs|]; simpl in IH.
    - by apply fold_extract_fonts.
    - simpl. set_solver. }
  rewrite Hfold. clear Hfold IH.
  destruct (decide (type = Some "TEXT")); [| simpl; set_solver].
  destruct style as [[[f|]]|]; simpl; [| set_solver | set_solver].
  destruct (truthy f); simpl; set_solver.
Qed.

Lemma extract_fonts_None (n : node) :
  extract_fonts n None = extract_fonts n (Some ∅).
Proof. by destruct n. Qed.

Lemma extract_fonts_set (n : node) :
  extract_fonts n None = list_to_set (omap font_of (postorder n)).
Proof. rewrite extract_fonts_None, extract_fonts_acc. set_solver. Qed.

Lemma omap_nothing {A B} (f : A → option B) (l : list A) :
  Forall (λ x, f x = None) l → omap f l = [].
Proof.
  induction 1 as [|x l Hx _ IH]; [done |]. cbn [omap list_omap]. by rewrite Hx.
Qed.

Lemma truthy_nonempty (s : string) : truthy s = true ↔ s ≠ "".
Proof. by destruct s. Qed.

(** what a single node contributes to the fonts *)
Lemma font_of_Some (n : node) (f : string) :
  font_of n = Some f
  ↔ node_type n = Some "TEXT"
    ∧ ∃ st, node_style n = Some st ∧ fontFamily st = Some f ∧ f ≠ "".
Proof.
  unfold font_of. destruct (decide (node_type n = Some "TEXT")) as [Ht|Ht].
  - destruct (node_style n) as [[[g|]]|]; simpl.
    + destruct (truthy g) eqn:Hg.
      * apply truthy_nonempty in Hg. split.
        -- intros [= <-]. eauto 6.
        -- intros (_ & st & [= <-] & [= <-] & _). done.
      * split; [done |]. intros (_ & st & [= <-] & [= <-] & Hne).
        apply truthy_nonempty in Hne. simpl in Hne. congruence.
    + split; [done |]. by intros (_ & st & [= <-] & ? & _).
    + split; [done |]. by intros (_ & st & ? & _).
  - split; [done | tauto].
Qed.

(** what a single node contributes to the texts *)
Lemma text_of_Some (n : node) (c : string) :
  text_of n = Some c ↔ node_type n = Some "TEXT" ∧ node_characters n = Some c.
Proof.
  unfold text_of. destruct (decide (node_type n = Some "TEXT")); [tauto |].
  split; [done | tauto].
Qed.

End TreeExtractor.

Section TreeClaims.

Import FigmaService.

(** C5, as the code has it.  The fonts of a tree are the fonts its nodes
    contribute, and a node contributes [f] if and only if its type is
    ["TEXT"] and it carries a style whose [fontFamily] is the non-empty
    [f].  The texts of a tree are the texts its nodes contribute, and a
    node contributes [c] if and only if its type is ["TEXT"] and it
    carries the key [characters] with value [c], which may be the empty
    string.  A tree without [TEXT] nodes gives the empty set and the empty
    list; a [TEXT] node without [characters] contributes no text, and
    contributes a font exactly when its style has a non-empty
    [fontFamily]. *)
Theorem extract_fonts_texts_contributions (t : node) :
  extract_fonts t None = list_to_set (omap font_of (postorder t))
  ∧ extract_texts t None = omap text_of (postorder t)
  ∧ (∀ n f, font_of n = Some f
            ↔ node_type n = Some "TEXT"
              ∧ ∃ st, node_style n = Some st ∧ fontFamily st = Some f ∧ f ≠ "")
  ∧ (∀ n c, text_of n = Some c
            ↔ node_type n = Some "TEXT" ∧ node_characters n = Some c)
  ∧ (∀ f, f ∈ extract_fonts t None
          ↔ ∃ n, n ∈ postorder t ∧ node_type n = Some "TEXT"
                 ∧ ∃ st, node_style n = Some st ∧ fontFamily st = Some f ∧ f ≠ "")
  ∧ (∀ c, c ∈ extract_texts t None
          ↔ ∃ n, n ∈ postorder t ∧ node_type n = Some "TEXT"
                 ∧ node_characters n = Some c)
  ∧ (Forall (λ n, node_type n ≠ Some "TEXT") (postorder t) →
     extract_fonts t None = ∅ ∧ extract_texts t None = [])
  ∧ (∀ n, node_type n = Some "TEXT" → node_characters n = None →
          text_of n = None ∧ font_of n = (node_style n ≫= fontFamily) ≫= (λ f, if truthy f then Some f else None)).
Proof.
  split; [apply extract_fonts_set |].
  split; [apply extract_texts_postorder_list |].
  split; [apply font_of_Some |].
  split; [apply text_of_Some |].
  split; [| split; [| split]].
  - intros f. rewrite extract_fonts_set, elem_of_list_to_set, list_elem_of_omap.
    split.
    + intros (n & Hn & Hf). exists n. split; [done |]. by apply font_of_Some.
    + intros (n & Hn & Hf). exists n. split; [done |]. by apply font_of_Some.
  - intros c. rewrite extract_texts_postorder_list, list_elem_of_omap.
    split.
    + intros (n & Hn & Hc). exists n. split; [done |]. by apply text_of_Some.
    + intros (n & Hn & Hc). exists n. split; [done |]. by apply text_of_Some.
  - intros Hno. rewrite extract_fonts_set, extract_texts_postorder_list.
    rewrite !omap_nothing; [done | |].
    + eapply Forall_impl; [exact Hno |]. intros n Hn. unfold text_of.
      by rewrite decide_False.
    + eapply Forall_impl; [exact Hno |]. intros n Hn. unfold font_of.
      by rewrite decide_False.
  - intros n Ht Hc. unfold text_of, font_of. rewrite !decide_True by done.
    split; [done |]. destruct (node_style n) as [[[f|]]|]; done.
Qed.

Lemma extract_fonts_texts_contributions_witness :
  extract_fonts (Node (Some "Page") (Some "CANVAS")
                   (Some [Node (Some "Box") (Some "FRAME") None None None]) None None) None = ∅
  ∧ extract_texts (Node (Some "Page") (Some "CANVAS")
                     (Some [Node (Some "Box") (Some "FRAME") None None None]) None None) None = [].
Proof.
  apply (extract_fonts_texts_contributions
           (Node (Some "Page") (Some "CANVAS")
              (Some [Node (Some "Box") (Some "FRAME") None None None]) None None)).
  repeat constructor; simpl; congruence.
Defined.

(** C5 fails as stated on two inputs.  A [TEXT] node whose [characters]
    is the empty string does contribute: the empty string is appended.  A
    [TEXT] node without [characters] but with a style does contribute its
    font. *)
Lemma text_node_contributes_anyway :
  extract_texts (Node (Some "Label") (Some "TEXT") None None (Some "")) None = [""]
  ∧ node_characters (Node (Some "Label") (Some "TEXT") None (Some (Style (Some "Inter"))) None) = None
  ∧ "Inter" ∈ extract_fonts
                (Node (Some "Label") (Some "TEXT") None (Some (Style (Some "Inter"))) None) None.
Proof. split; [done |]. split; [done |]. rewrite extract_fonts_set. simpl. set_solver. Qed.

(** C10.  [extract_texts] is a post-order traversal: the result is the
    list of the texts of the nodes in post-order, and at every node the
    texts of the children, in order, come before the node's own
    characters. *)
Theorem extract_texts_post_order (name type : option string)
    (children : option (list node)) (style : option style_dict)
    (characters : option string) :
  let n := Node name type children style characters in
  extract_texts n None = omap text_of (postorder n)
  ∧ extract_texts n None
    = concat ((λ child, extract_texts child None) <$> default [] children)
      ++ (if decide (type = Some "TEXT") then option_list characters else []).
Proof.
  intros n. split; [apply extract_texts_postorder_list |].
  rewrite extract_texts_postorder_list. subst n. cbn [postorder].
  rewrite omap_app. f_equal.
  - destruct children as [cs|]; [| done]. simpl.
    induction cs as [|c cs IH]; [done |]. simpl.
    by rewrite omap_app, IH, extract_texts_postorder_list.
  - cbn [omap list_omap]. unfold text_of. cbn [node_type node_characters].
    destruct (decide (type = Some "TEXT")); [destruct characters |]; done.
Qed.

Lemma extract_texts_post_order_example :
  extract_texts
    (Node (Some "Title") (Some "TEXT")
       (Some [Node (Some "a") (Some "TEXT") None None (Some "first");
              Node (Some "g") (Some "GROUP")
                (Some [Node (Some "b") (Some "TEXT") None None (Some "second")])
                None None])
       None (Some "own")) None
  = ["first"; "second"; "own"].
Proof. reflexivity. Qed.

End TreeClaims.

(** ** The dictionary normalizer *)

Section Normalizer.

Import FigmaService.

Lemma comprehension_named (items : list (string * details)) (acc : gmap string string) :
  NoDup items.*1 →
  Forall named items →
  ∃ names,
    fold_result
      (λ acc item, bind (getitem "name" (details_name item.2))
                        (λ name, Ok (<[item.1 := name]> acc)))
      acc items = Ok names
    ∧ ∀ id, names !! id
            = match (list_to_map items : gmap string details) !! id with
              | Some e => details_name e
              | None => acc !! id
              end.
Proof.
  intros Hnd Hall. revert acc Hnd.
  induction Hall as [|[k e] items [name Hname] _ IH]; intros acc Hnd.
  - exists acc. split; [done |]. intros id.
    change (list_to_map [] : gmap string details) with (∅ : gmap string details).
    by rewrite lookup_empty.
  - apply NoDup_cons in Hnd as [Hk Hnd]. simpl in Hname.
    destruct (IH (<[k := name]> acc) Hnd) as (names & Hfold & Hlook).
    exists names. split.
    + cbn [fold_result]. simpl. rewrite Hname. simpl. exact Hfold.
    + intros id. rewrite Hlook. cbn [list_to_map foldr]. simpl.
      destruct (decide (k = id)) as [<-|Hne].
      * rewrite lookup_insert_eq.
        rewrite (not_elem_of_list_to_map_1 _ k) by done.
        rewrite lookup_insert_eq. congruence.
      * by rewrite !lookup_insert_ne by done.
Qed.

Lemma comprehension_unnamed (items : list (string * details)) (acc : gmap string string) :
  Exists (λ item, details_name item.2 = None) items →
  fold_result
    (λ acc item, bind (getitem "name" (details_name item.2))
                      (λ name, Ok (<[item.1 := name]> acc)))
    acc items = Raise (Exn KeyError "'name'").
Proof.
  intros Hex. revert acc. induction Hex as [[k e] items Hnone | [k e] items _ IH]; intros acc.
  - cbn [fold_result]. simpl in *. by rewrite Hnone.
  - cbn [fold_result]. simpl. destruct (details_name e); simpl; [apply IH | done].
Qed.

Lemma comprehension_map (d : gmap string details) :
  ((∀ id e, d !! id = Some e → is_Some (details_name e)) →
   comprehension (map_to_list d) = Ok (omap details_name d))
  ∧ ((∃ id e, d !! id = Some e ∧ details_name e = None) →
     comprehension (map_to_list d) = Raise (Exn KeyError "'name'")).
Proof.
  split.
  - intros Hall.
    destruct (comprehension_named (map_to_list d) ∅) as (names & Hfold & Hlook).
    + apply NoDup_fst_map_to_list.
    + apply Forall_forall. intros [k e] Hin.
      apply elem_of_map_to_list in Hin. by eapply Hall.
    + unfold comprehension. rewrite Hfold. f_equal. apply map_eq. intros id.
      rewrite Hlook, list_to_map_to_list, lookup_omap, lookup_empty.
      destruct (d !! id) as [e|] eqn:He; simpl; [| done].
      by destruct (Hall id e He) as [name ->].
  - intros (id & e & Hin & Hnone). apply comprehension_unnamed.
    apply Exists_exists. exists (id, e). split; [| done].
    by apply elem_of_map_to_list.
Qed.

(** C7.  [extract_components] and [extract_styles] map every id to the
    [name] of its entry: when every entry has a [name] the result is the
    whole mapping, and when an entry has none the call raises [KeyError]
    and returns no mapping. *)
Theorem extract_components_styles_names (d : gmap string details) :
  ((∀ id e, d !! id = Some e → is_Some (details_name e)) →
   extract_components d = Ok (omap details_name d)
   ∧ extract_styles d = Ok (omap details_name d)
   ∧ ∀ id, omap details_name d !! id = d !! id ≫= details_name)
  ∧ ((∃ id e, d !! id = Some e ∧ details_name e = None) →
     extract_components d = Raise (Exn KeyError "'name'")
     ∧ extract_styles d = Raise (Exn KeyError "'name'")).
Proof.
  destruct (comprehension_map d) as [Hok Herr]. split.
  - intros Hall. repeat split; [by apply Hok | by apply Hok |].
    intros id. apply lookup_omap.
  - intros Hex. split; by apply Herr.
Qed.

End Normalizer.

Section NormalizerWitness.

Import FigmaService.

Lemma extract_components_styles_names_witness :
  (extract_components {[ "1:2" := Details (Some "Button") ]}
     = Ok (omap details_name {[ "1:2" := Details (Some "Button") ]})
   ∧ extract_styles {[ "1:2" := Details (Some "Button") ]}
     = Ok (omap details_name {[ "1:2" := Details (Some "Button") ]})
   ∧ ∀ id, omap details_name ({[ "1:2" := Details (Some "Button") ]} : gmap string details) !! id
           = ({[ "1:2" := Details (Some "Button") ]} : gmap string details) !! id ≫= details_name)
  ∧ (extract_components {[ "1:2" := Details None ]} = Raise (Exn KeyError "'name'")
     ∧ extract_styles {[ "1:2" := Details None ]} = Raise (Exn KeyError "'name'")).
Proof.
  split.
  - apply (proj1 (extract_components_styles_names {[ "1:2" := Details (Some "Button") ]})).
    intros id e Hin. apply lookup_singleton_Some in Hin as [_ <-]. by eexists.
  - apply (proj2 (extract_components_styles_names {[ "1:2" := Details None ]})).
    exists "1:2", (Details None). split; [apply lookup_singleton_eq | done].
Defined.

End NormalizerWitness.

(** ** The component name deriver *)

Section DeriverFacts.

Import DiagramService.

Variable json_loads : string → result pyval.
Variable llm_service : option (string → result string).
Variable figma_data : figma_data_dict.
Variable ai_analysis : ai_analysis_dict.

Abbreviation parts := (fallback_parts figma_data ai_analysis).
Abbreviation fallback_on := (fallback figma_data ai_analysis).

Lemma bind_not_ok {A B} (r : result A) (k : A → result B) (b : B) :
  (∀ a, k a ≠ Ok b) → bind r k ≠ Ok b.
Proof. intros Hk. destruct r; simpl; [apply Hk | done]. Qed.

Lemma fold_pages (ps : list string) (l : list pyval) :
  fold_result
    (λ components page,
       if truthy (strip page)
       then append components (PStr (page +:+ " Interface"))
       else Ok components)
    (PList l) ps
  = Ok (PList (l ++ (PStr <$> ((λ page, page +:+ " Interface")
                                 <$> filter (λ page, truthy (strip page) = true) ps)))).
Proof.
  revert l. induction ps as [|p ps IH]; intros l.
  - simpl. by rewrite app_nil_r.
  - cbn [fold_result]. rewrite filter_cons.
    destruct (truthy (strip p)) eqn:Hp.
    + cbn [append]. rewrite IH, decide_True by done.
      by rewrite !fmap_cons, <- app_assoc.
    + rewrite IH, decide_False by done. done.
Qed.

(** on a list, the fallback appends the parts that are present, puts the
    one-label list in place of an empty list, and cuts to six *)
Lemma fallback_on_list (items : list pyval) :
  fallback_on (PList items)
  = Ok (PList (take 6 (match items ++ (PStr <$> parts) with
                       | [] => PStr <$> default_labels figma_data
                       | l => l
                       end))).
Proof.
  unfold fallback, fallback_parts.
  match goal with |- bind ?s _ = _ =>
    assert (s = Ok (PList (items ++ (PStr <$> part_user ai_analysis)))) as ->
  end.
  { unfold part_user. destruct (truthy _); simpl; by rewrite ?app_nil_r. }
  cbn [bind].
  match goal with |- bind ?s _ = _ =>
    assert (s = Ok (PList ((items ++ (PStr <$> part_user ai_analysis))
                           ++ (PStr <$> part_pages figma_data)))) as ->
  end.
  { unfold part_pages. destruct (pages figma_data) as [|p ps] eqn:Hps.
    - simpl. by rewrite app_nil_r.
    - apply fold_pages. }
  cbn [bind].
  match goal with |- bind ?s _ = _ =>
    assert (s = Ok (PList (((items ++ (PStr <$> part_user ai_analysis))
                            ++ (PStr <$> part_pages figma_data))
                           ++ (PStr <$> part_frontend ai_analysis)))) as ->
  end.
  { unfold part_frontend. destruct (frontend _) as [[|f fs]|]; simpl; by rewrite ?app_nil_r. }
  cbn [bind].
  match goal with |- bind ?s _ = _ =>
    assert (s = Ok (PList ((((items ++ (PStr <$> part_user ai_analysis))
                             ++ (PStr <$> part_pages figma_data))
                            ++ (PStr <$> part_frontend ai_analysis))
                           ++ (PStr <$> part_backend ai_analysis)))) as ->
  end.
  { unfold part_backend. destruct (backend _) as [[|f fs]|]; simpl; by rewrite ?app_nil_r. }
  cbn [bind].
  match goal with |- bind ?s _ = _ =>
    assert (s = Ok (PList (((((items ++ (PStr <$> part_user ai_analysis))
                              ++ (PStr <$> part_pages figma_data))
                             ++ (PStr <$> part_frontend ai_analysis))
                            ++ (PStr <$> part_backend ai_analysis))
                           ++ (PStr <$> part_database ai_analysis)))) as ->
  end.
  { unfold part_database. destruct (database _) as [db|]; [| simpl; by rewrite app_nil_r].
    destruct db as [|c db]; [simpl; by rewrite app_nil_r |].
    cbn [truthy andb]. destruct (truthy _); simpl; by rewrite ?app_nil_r. }
  cbn [bind].
  match goal with |- bind ?s _ = _ =>
    assert (s = Ok (PList ((((((items ++ (PStr <$> part_user ai_analysis))
                               ++ (PStr <$> part_pages figma_data))
                              ++ (PStr <$> part_frontend ai_analysis))
                             ++ (PStr <$> part_backend ai_analysis))
                            ++ (PStr <$> part_database ai_analysis))
                           ++ (PStr <$> part_feature ai_analysis)))) as ->
  end.
  { unfold part_feature. destruct (the_key_features _) as [|f fs]; [simpl; by rewrite app_nil_r |].
    destruct (truthy _); simpl; by rewrite ?app_nil_r. }
  cbn [bind].
  rewrite <- !app_assoc, <- !fmap_app.
  set (l := items ++ (PStr <$> _)).
  destruct l as [|x l]; simpl; [| done].
  unfold default_labels. by destruct (truthy _).
Qed.

(** with [components] still the empty list, the fallback returns the list
    the specification describes *)
Lemma fallback_on_empty :
  fallback_on (PList []) = Ok (PList (PStr <$> fallback_labels_spec figma_data ai_analysis)).
Proof.
  rewrite fallback_on_list. unfold fallback_labels_spec. rewrite app_nil_l.
  destruct parts as [|x l] eqn:Hparts.
  - unfold default_labels. by destruct (truthy _).
  - rewrite fmap_cons. cbn [take]. by rewrite fmap_cons, fmap_take.
Qed.

(** the fallback never returns an empty list *)
Lemma fallback_not_empty (components : pyval) :
  fallback_on components ≠ Ok (PList []).
Proof.
  unfold fallback. repeat (apply bind_not_ok; intros ?).
  match goal with |- slice6 (if negb (pytruthy ?c) then _ else _) ≠ _ => destruct c as [|b|z|q|s|[|x l]|[|x l]] end;
    simpl; try done; try (by destruct (truthy _)).
  - destruct b; simpl; [done | by destruct (truthy _)].
  - destruct (z =? 0); simpl; [by destruct (truthy _) | done].
  - destruct (Qeq_bool q 0); simpl; [by destruct (truthy _) | done].
  - destruct s; simpl; [by destruct (truthy _) | done].
Qed.

End DeriverFacts.

Section DeriverPaths.

Import DiagramService.

Variable json_loads : string → result pyval.
Variable figma_data : figma_data_dict.
Variable ai_analysis : ai_analysis_dict.

Abbreviation the_fallback_list :=
  (Ok (PList (PStr <$> fallback_labels_spec figma_data ai_analysis))).


(** the call to the model raises: the exception is printed and the
    fallback list returned *)
Lemma deriver_llm_raises (svc : string → result string) (e : exn) :
  svc (prompt figma_data ai_analysis) = Raise e →
  extract_components_from_figma json_loads (Some svc) figma_data ai_analysis = the_fallback_list
  ∧ extract_components_printed json_loads (Some svc) figma_data ai_analysis
    = ["LLM component generation failed: " +:+ exn_str e].
Proof.
  intros Hsvc. unfold extract_components_from_figma, extract_components_printed, llm_path.
  rewrite Hsvc. split; [apply fallback_on_empty | done].
Qed.

(** the response is not JSON: the fallback list *)
Lemma deriver_parse_fails (svc : string → result string) (response : string) (e : exn) :
  svc (prompt figma_data ai_analysis) = Ok response →
  json_loads (clean_response response) = Raise e →
  extract_components_from_figma json_loads (Some svc) figma_data ai_analysis = the_fallback_list.
Proof.
  intros Hsvc Hjson. unfold extract_components_from_figma, llm_path.
  rewrite Hsvc. cbn zeta. rewrite Hjson. apply fallback_on_empty.
Qed.

(** the response is a list of three items or more: its first six items *)
Lemma deriver_accepts (svc : string → result string) (response : string)
    (items : list pyval) :
  svc (prompt figma_data ai_analysis) = Ok response →
  json_loads (clean_response response) = Ok (PList items) →
  (3 ≤ length items)%nat →
  extract_components_from_figma json_loads (Some svc) figma_data ai_analysis
  = Ok (PList (take 6 items)).
Proof.
  intros Hsvc Hjson Hlen. unfold extract_components_from_figma, llm_path.
  rewrite Hsvc. cbn zeta. rewrite Hjson.
  by replace (3 <=? length items)%nat with true by (symmetry; apply Nat.leb_le; lia).
Qed.

(** C2, where the code departs from it.  When the response parses to a
    list of fewer than three items, the variable [components] holds that
    list when the fallback starts, so the items of the response come
    first in the result, before the parts of the fallback. *)
Theorem deriver_keeps_short_list (svc : string → result string) (response : string)
    (items : list pyval) :
  svc (prompt figma_data ai_analysis) = Ok response →
  json_loads (clean_response response) = Ok (PList items) →
  (0 < length items < 3)%nat →
  extract_components_from_figma json_loads (Some svc) figma_data ai_analysis
  = Ok (PList (take 6 (items ++ (PStr <$> fallback_parts figma_data ai_analysis)))).
Proof.
  intros Hsvc Hjson Hlen. unfold extract_components_from_figma, llm_path.
  rewrite Hsvc. cbn zeta. rewrite Hjson.
  replace (3 <=? length items)%nat with false by (symmetry; apply Nat.leb_gt; lia).
  rewrite fallback_on_list. destruct items as [|x items]; [simpl in Hlen; lia | done].
Qed.

(** C4, where the code departs from it.  When the response parses to a
    value that is not a list, the variable [components] holds that value
    when the fallback starts, and with a non-empty application type the
    first [components.append] raises [AttributeError], which reaches the
    caller. *)
Theorem deriver_raises_on_non_list (svc : string → result string) (response : string)
    (v : pyval) :
  svc (prompt figma_data ai_analysis) = Ok response →
  json_loads (clean_response response) = Ok v →
  type_name v ≠ "list" →
  truthy (app_type ai_analysis) = true →
  extract_components_from_figma json_loads (Some svc) figma_data ai_analysis
  = Raise (Exn AttributeError ("'" +:+ type_name v +:+ "' object has no attribute 'append'")).
Proof.
  intros Hsvc Hjson Hv Happ. unfold extract_components_from_figma, llm_path.
  rewrite Hsvc. cbn zeta. rewrite Hjson.
  destruct v; try done; unfold fallback; rewrite Happ; done.
Qed.

End DeriverPaths.

Section DeriverClaims.

Import DiagramService Samples.

(** the example of the specification: application type [Dashboard], pages
    [Home] and [Settings], no technical stack, no features, no model *)
Lemma deriver_dashboard_example (json_loads : string → result pyval) :
  extract_components_from_figma json_loads None dashboard_data dashboard_analysis
  = Ok (PList [PStr "Dashboard User"; PStr "Home Interface"; PStr "Settings Interface"]).
Proof. reflexivity. Qed.

(** a list of three items inside a code fence is accepted as it is *)
Lemma deriver_accepts_fenced :
  clean_response three_items_fenced = three_items
  ∧ extract_components_from_figma json_loads_sample (Some (λ _, Ok three_items_fenced))
      dashboard_data dashboard_analysis
    = Ok (PList [PStr "UI"; PStr "API"; PStr "DB"]).
Proof. split; reflexivity. Qed.

(** a response that is not JSON gives the fallback list *)
Lemma deriver_rejects_prose :
  extract_components_from_figma json_loads_sample (Some (λ _, Ok "Sorry, I cannot help."))
    dashboard_data dashboard_analysis
  = Ok (PList [PStr "Dashboard User"; PStr "Home Interface"; PStr "Settings Interface"]).
Proof. reflexivity. Qed.

(** with no facts at all the deriver returns the single label [Application] *)
Lemma deriver_nothing_known (json_loads : string → result pyval) :
  extract_components_from_figma json_loads None (FigmaData None None) (AiAnalysis None)
  = Ok (PList [PStr "Application"]).
Proof. reflexivity. Qed.

Lemma deriver_keeps_short_list_witness :
  extract_components_from_figma json_loads_sample (Some (λ _, Ok two_items))
    dashboard_data dashboard_analysis
  = Ok (PList [PStr "A"; PStr "B"; PStr "Dashboard User"; PStr "Home Interface";
               PStr "Settings Interface"])
  ∧ fallback_labels_spec dashboard_data dashboard_analysis
    = ["Dashboard User"; "Home Interface"; "Settings Interface"].
Proof.
  split; [| reflexivity].
  apply (deriver_keeps_short_list json_loads_sample dashboard_data dashboard_analysis
           (λ _, Ok two_items) two_items [PStr "A"; PStr "B"]).
  - reflexivity.
  - reflexivity.
  - simpl. lia.
Defined.

Lemma deriver_raises_on_non_list_witness :
  extract_components_from_figma json_loads_sample (Some (λ _, Ok empty_object))
    dashboard_data dashboard_analysis
  = Raise (Exn AttributeError "'dict' object has no attribute 'append'").
Proof.
  apply (deriver_raises_on_non_list json_loads_sample dashboard_data dashboard_analysis
           (λ _, Ok empty_object) empty_object (PDict [])).
  - reflexivity.
  - reflexivity.
  - simpl. congruence.
  - reflexivity.
Defined.

(** C8, as the code has it.  With one label [create_box_diagram] returns
    the three lines of one box and no arrow.  With no label it raises
    [ValueError], from [max] on an empty sequence; there is no one-box
    fallback in it.  The deriver, which supplies the labels, never returns
    an empty list. *)
Theorem create_box_diagram_one_or_none :
  (∀ label,
     create_box_diagram [label]
     = Ok (join nl (create_ascii_box label (Some (Z.max (len label + 4) 20))))
     ∧ box_diagram_lines [label]
       = Ok (create_ascii_box label (Some (Z.max (len label + 4) 20))))
  ∧ create_box_diagram [] = Raise (Exn ValueError "max() arg is an empty sequence")
  ∧ (∀ json_loads llm_service figma_data ai_analysis,
       extract_components_from_figma json_loads llm_service figma_data ai_analysis
       ≠ Ok (PList [])).
Proof.
  split; [| split].
  - intros label. unfold create_box_diagram, box_diagram_lines. simpl. done.
  - reflexivity.
  - intros json_loads llm_service figma_data ai_analysis.
    unfold extract_components_from_figma.
    destruct (llm_path _ _ _ _) as [v|components printed] eqn:Hpath.
    + unfold llm_path in Hpath.
      destruct llm_service as [svc|]; [| done].
      destruct (svc _) as [response|e]; [| done]. cbn zeta in Hpath.
      destruct (json_loads _) as [[| | | | |items|]|e]; try done.
      destruct (3 <=? length items)%nat eqn:Hlen; [| done].
      injection Hpath as <-. apply Nat.leb_le in Hlen.
      destruct items; [simpl in Hlen; lia | done].
    + apply fallback_not_empty.
Qed.

(** C8 fails as stated: on the empty list [create_box_diagram] returns
    no diagram. *)
Lemma create_box_diagram_empty_raises :
  ¬ ∃ s, create_box_diagram [] = Ok s.
Proof. intros [s Hs]. discriminate Hs. Qed.

End DeriverClaims.

(** ** What the extractor writes to the store *)

Section Frame.

Import Heap.

Lemma touches_refl (a : loc) (h : heap) : touches a h h.
Proof. by intros x _. Qed.

Lemma touches_trans (a : loc) (h1 h2 h3 : heap) :
  touches a h1 h2 → touches a h2 h3 → touches a h1 h3.
Proof. intros H12 H23 x Hx. by rewrite H23, H12. Qed.

Lemma touches_insert (a : loc) (o : obj) (h : heap) : touches a h (<[a := o]> h).
Proof. intros x Hx. by rewrite lookup_insert_ne. Qed.

Lemma framed_ret {A} (a : loc) (x : A) : framed a (ret x).
Proof. intros h. apply touches_refl. Qed.

Lemma framed_raise {A} (a : loc) (e : exn) : framed a (raise (A := A) e).
Proof. intros h. apply touches_refl. Qed.

Lemma framed_out_of_fuel {A} (a : loc) : framed a (out_of_fuel (A := A)).
Proof. by intros h. Qed.

Lemma framed_seq {A B} (a : loc) (m : M A) (k : A → M B) :
  framed a m → (∀ x, framed a (k x)) → framed a (seq m k).
Proof.
  intros Hm Hk h. unfold seq. specialize (Hm h).
  destruct (m h) as [x h1|e h1|]; [| done | done].
  specialize (Hk x h1). destruct (k x h1); [| | done]; by eapply touches_trans.
Qed.

Lemma framed_load_node (a l : loc) : framed a (load_node l).
Proof. intros h. unfold load_node. destruct (h !! l) as [[]|]; apply touches_refl. Qed.

Lemma framed_load_children (a l : loc) : framed a (load_children l).
Proof. intros h. unfold load_children. destruct (h !! l) as [[]|]; apply touches_refl. Qed.

Lemma framed_load_style (a l : loc) : framed a (load_style l).
Proof. intros h. unfold load_style. destruct (h !! l) as [[]|]; apply touches_refl. Qed.

Lemma framed_set_add (a : loc) (x : string) : framed a (set_add a x).
Proof.
  intros h. unfold set_add.
  destruct (h !! a) as [[]|]; try apply touches_refl. apply touches_insert.
Qed.

Lemma framed_list_append (a : loc) (x : string) : framed a (list_append a x).
Proof.
  intros h. unfold list_append.
  destruct (h !! a) as [[]|]; try apply touches_refl. apply touches_insert.
Qed.

Lemma framed_for_each {B} (a : loc) (f : B → M unit) (l : list B) :
  (∀ x, framed a (f x)) → framed a (for_each f l).
Proof.
  intros Hf. induction l as [|x l IH]; simpl.
  - apply framed_ret.
  - apply framed_seq; [apply Hf | by intros _].
Qed.

Lemma framed_seq_ret {A B} (a : loc) (x : A) (k : A → M B) :
  framed a (k x) → framed a (seq (ret x) k).
Proof. intros Hk h. exact (Hk h). Qed.

(** called with the accumulator at [a], [extract_fonts] writes at [a] only *)
Lemma framed_extract_fonts (fuel : nat) (node a : loc) :
  framed a (extract_fonts fuel node (Some a)).
Proof.
  revert node. induction fuel as [|fuel IH]; intros node; [apply framed_out_of_fuel |].
  cbn [extract_fonts]. apply framed_seq_ret.
  apply framed_seq; [apply framed_load_node | intros d].
  apply framed_seq; [| intros _; apply framed_seq; [| intros _; apply framed_ret]].
  - destruct (obj_children d) as [cl|]; [| apply framed_ret].
    apply framed_seq; [apply framed_load_children | intros children].
    apply framed_for_each. intros child.
    apply framed_seq; [apply IH | intros _; apply framed_ret].
  - destruct (decide _); [| apply framed_ret].
    destruct (obj_style d) as [sl|]; [| apply framed_ret].
    apply framed_seq; [apply framed_load_style | intros st].
    destruct (fontFamily st) as [f|]; [| apply framed_ret].
    destruct (truthy f); [apply framed_set_add | apply framed_ret].
Qed.

(** called with the accumulator at [a], [extract_texts] writes at [a] only *)
Lemma framed_extract_texts (fuel : nat) (node a : loc) :
  framed a (extract_texts fuel node (Some a)).
Proof.
  revert node. induction fuel as [|fuel IH]; intros node; [apply framed_out_of_fuel |].
  cbn [extract_texts]. apply framed_seq_ret.
  apply framed_seq; [apply framed_load_node | intros d].
  apply framed_seq; [| intros _; apply framed_seq; [| intros _; apply framed_ret]].
  - destruct (obj_children d) as [cl|]; [| apply framed_ret].
    apply framed_seq; [apply framed_load_children | intros children].
    apply framed_for_each. intros child.
    apply framed_seq; [apply IH | intros _; apply framed_ret].
  - destruct (decide _); [| apply framed_ret].
    destruct (obj_characters d) as [c|]; [apply framed_list_append | apply framed_ret].
Qed.

Lemma fresh_unused (h : heap) : h !! fresh (dom h) = None.
Proof. apply not_elem_of_dom, is_fresh. Qed.

Lemma touches_fresh_preserved (o : obj) (h h' : heap) :
  touches (fresh (dom h)) (<[fresh (dom h) := o]> h) h' → preserved h h'.
Proof.
  intros Ht x ox Hx.
  assert (x ≠ fresh (dom h)) as Hne.
  { intros ->. rewrite fresh_unused in Hx. done. }
  rewrite Ht by done. by rewrite lookup_insert_ne.
Qed.

(** called without accumulator, [extract_fonts] leaves every object of the
    store as it was, whatever the store holds and however the call ends *)
Lemma extract_fonts_preserves (fuel : nat) (node : loc) (h h' : heap) :
  store_of (extract_fonts fuel node None h) = Some h' → preserved h h'.
Proof.
  destruct fuel as [|fuel]; [done |]. intros Hout.
  apply (touches_fresh_preserved (OSet ∅)).
  pose proof (framed_extract_fonts (S fuel) node (fresh (dom h))
                (<[fresh (dom h) := OSet ∅]> h)) as Hfr.
  change (extract_fonts (S fuel) node (Some (fresh (dom h))) (<[fresh (dom h) := OSet ∅]> h))
    with (extract_fonts (S fuel) node None h) in Hfr.
  destruct (extract_fonts (S fuel) node None h); simpl in Hout; by simplify_eq.
Qed.

Lemma extract_texts_preserves (fuel : nat) (node : loc) (h h' : heap) :
  store_of (extract_texts fuel node None h) = Some h' → preserved h h'.
Proof.
  destruct fuel as [|fuel]; [done |]. intros Hout.
  apply (touches_fresh_preserved (OList [])).
  pose proof (framed_extract_texts (S fuel) node (fresh (dom h))
                (<[fresh (dom h) := OList []]> h)) as Hfr.
  change (extract_texts (S fuel) node (Some (fresh (dom h))) (<[fresh (dom h) := OList []]> h))
    with (extract_texts (S fuel) node None h) in Hfr.
  destruct (extract_texts (S fuel) node None h); simpl in Hout; by simplify_eq.
Qed.

Lemma read_only_ret {A} (x : A) : read_only (ret x).
Proof. by intros h. Qed.

Lemma read_only_seq {A B} (m : M A) (k : A → M B) :
  read_only m → (∀ x, read_only (k x)) → read_only (seq m k).
Proof.
  intros Hm Hk h. unfold seq. specialize (Hm h).
  destruct (m h) as [x h1|e h1|]; [| done | done]. subst h1. apply Hk.
Qed.

Lemma read_only_load_node (l : loc) : read_only (load_node l).
Proof. intros h. unfold load_node. by destruct (h !! l) as [[]|]. Qed.

Lemma read_only_load_children (l : loc) : read_only (load_children l).
Proof. intros h. unfold load_children. by destruct (h !! l) as [[]|]. Qed.

Lemma read_only_item {A} (key : string) (v : option A) : read_only (item key v).
Proof. intros h. unfold item. by destruct v. Qed.

Lemma read_only_fold_each {A B} (f : A → B → M A) (x : A) (l : list B) :
  (∀ x y, read_only (f x y)) → read_only (fold_each f x l).
Proof.
  intros Hf. revert x. induction l as [|y l IH]; intros x; simpl.
  - apply read_only_ret.
  - apply read_only_seq; [apply Hf | apply IH].
Qed.

(** [get_project_structure] writes nothing *)
Lemma read_only_get_project_structure (fuel : nat) (node : loc) (level : Z) :
  read_only (get_project_structure fuel node level).
Proof.
  revert node level. induction fuel as [|fuel IH]; intros node level; [by intros h |].
  cbn [get_project_structure].
  apply read_only_seq; [apply read_only_load_node | intros d].
  apply read_only_seq; [apply read_only_item | intros name].
  apply read_only_seq; [apply read_only_item | intros type].
  destruct (obj_children d) as [cl|]; [| apply read_only_ret].
  apply read_only_seq; [apply read_only_load_children | intros children].
  apply read_only_fold_each. intros struct child.
  apply read_only_seq; [apply IH | intros s; apply read_only_ret].
Qed.

End Frame.

(** ** The extractor on a store that holds a tree *)

Section OnTree.

Import Heap.

Lemma seq_val {A B} (m : M A) (k : A → M B) (x : A) (h h' : heap) :
  m h = Val x h' → seq m k h = k x h'.
Proof. intros Hm. unfold seq. by rewrite Hm. Qed.

Lemma seq_exc {A B} (m : M A) (k : A → M B) (e : exn) (h h' : heap) :
  m h = Exc e h' → seq m k h = Exc e h'.
Proof. intros Hm. unfold seq. by rewrite Hm. Qed.

Lemma depth_children (name type : option string) (cs : list node)
    (style : option style_dict) (characters : option string) (fuel : nat) :
  (depth (Node name type (Some cs) style characters) ≤ S fuel)%nat →
  Forall (λ c, (depth c ≤ fuel)%nat) cs.
Proof.
  cbn [depth]. intros Hd. apply le_S_n in Hd.
  induction cs as [|c cs IH]; constructor; simpl in Hd; [lia | apply IH; lia].
Qed.

Lemma repr_style_preserved (h h' : heap) (sl : option loc) (style : option style_dict) :
  preserved h h' → repr_style h sl style → repr_style h' sl style.
Proof. intros Hp. destruct style, sl; simpl; auto. Qed.

Lemma Forall2_impl_each {A B} (R R' : A → B → Prop) (xs : list A) (ys : list B) :
  Forall2 R xs ys → Forall (λ y, ∀ x, R x y → R' x y) ys → Forall2 R' xs ys.
Proof.
  induction 1 as [|x y xs ys Hxy _ IH]; intros Hall; [constructor |].
  apply Forall_cons in Hall as [Hy Hall]. constructor; [by apply Hy | by apply IH].
Qed.

(** a layout stays a layout in a store that keeps every object *)
Lemma repr_preserved (h h' : heap) (t : node) :
  preserved h h' → ∀ l, repr h l t → repr h' l t.
Proof.
  intros Hp. induction t as [name type children style characters IH] using node_nested_ind.
  intros l Hr. inversion Hr; subst.
  - eapply repr_leaf; [by apply Hp | by eapply repr_style_preserved].
  - eapply repr_inner; [by apply Hp | by apply Hp | | by eapply repr_style_preserved].
    simpl in IH. by eapply Forall2_impl_each.
Qed.

Section Accumulator.

(** the store before the call, and the address of the accumulator, which
    is unused in it *)
Variable h0 : heap.
Variable a : loc.
Hypothesis Hfresh : h0 !! a = None.

Lemma lookup_under (v : obj) (x : loc) (o : obj) :
  h0 !! x = Some o → <[a := v]> h0 !! x = Some o.
Proof. intros Hx. rewrite lookup_insert_ne; [done |]. intros ->. congruence. Qed.

Lemma load_node_under (v : obj) (l : loc) (d : node_obj) :
  h0 !! l = Some (ONode d) → load_node l (<[a := v]> h0) = Val d (<[a := v]> h0).
Proof. intros Hl. unfold load_node. by rewrite (lookup_under v l _ Hl). Qed.

Lemma load_children_under (v : obj) (l : loc) (ls : list loc) :
  h0 !! l = Some (OChildren ls) →
  load_children l (<[a := v]> h0) = Val ls (<[a := v]> h0).
Proof. intros Hl. unfold load_children. by rewrite (lookup_under v l _ Hl). Qed.

Lemma load_style_under (v : obj) (l : loc) (st : style_dict) :
  h0 !! l = Some (OStyle st) → load_style l (<[a := v]> h0) = Val st (<[a := v]> h0).
Proof. intros Hl. unfold load_style. by rewrite (lookup_under v l _ Hl). Qed.

Lemma set_add_under (s : gset string) (x : string) :
  set_add a x (<[a := OSet s]> h0) = Val tt (<[a := OSet ({[x]} ∪ s)]> h0).
Proof. unfold set_add. by rewrite lookup_insert_eq, insert_insert_eq. Qed.

Lemma list_append_under (xs : list string) (x : string) :
  list_append a x (<[a := OList xs]> h0) = Val tt (<[a := OList (xs ++ [x])]> h0).
Proof. unfold list_append. by rewrite lookup_insert_eq, insert_insert_eq. Qed.

(** the loop over the children, given the result for each child *)
Lemma for_each_fonts (fuel : nat) (ls : list loc) (cs : list node) :
  Forall2 (repr h0) ls cs →
  Forall (λ c, ∀ fuel l s, repr h0 l c → (depth c ≤ fuel)%nat →
               extract_fonts fuel l (Some a) (<[a := OSet s]> h0)
               = Val a (<[a := OSet (FigmaService.extract_fonts c (Some s))]> h0)) cs →
  Forall (λ c, (depth c ≤ fuel)%nat) cs →
  ∀ s, for_each (λ child, extract_fonts fuel child (Some a) ;; ret tt) ls
         (<[a := OSet s]> h0)
       = Val tt (<[a := OSet (foldl (λ fonts child,
                                       FigmaService.extract_fonts child (Some fonts)) s cs)]> h0).
Proof.
  induction 1 as [|l c ls cs Hc _ IH]; intros Hall Hdepth s; [done |].
  apply Forall_cons in Hall as [Hcall Hall]. apply Forall_cons in Hdepth as [Hcd Hdepth].
  cbn [for_each foldl].
  erewrite seq_val; [| erewrite seq_val; [reflexivity | by apply Hcall]].
  by apply IH.
Qed.

Lemma extract_fonts_on_tree (t : node) :
  ∀ fuel l s, repr h0 l t → (depth t ≤ fuel)%nat →
    extract_fonts fuel l (Some a) (<[a := OSet s]> h0)
    = Val a (<[a := OSet (FigmaService.extract_fonts t (Some s))]> h0).
Proof.
  induction t as [name type children style characters IH] using node_nested_ind.
  intros fuel l s Hr Hd. destruct fuel as [|fuel]; [simpl in Hd; lia |].
  cbn [extract_fonts FigmaService.extract_fonts default]. change (id s) with s.
  assert (Hown : ∀ (s1 : gset string) (sl : option loc),
             repr_style h0 sl style →
             ((if decide (type = Some "TEXT") then
                 match sl with
                 | Some sl =>
                     let* st := load_style sl in
                     match fontFamily st with
                     | Some font_family =>
                         if truthy font_family then set_add a font_family else ret tt
                     | None => ret tt
                     end
                 | None => ret tt
                 end
               else ret tt) ;; ret a) (<[a := OSet s1]> h0)
             = Val a (<[a := OSet
                 (if decide (type = Some "TEXT") then
                    match style with
                    | Some st =>
                        match fontFamily st with
                        | Some font_family =>
                            if truthy font_family then {[font_family]} ∪ s1 else s1
                        | None => s1
                        end
                    | None => s1
                    end
                  else s1)]> h0)).
  { intros s1 sl Hst. destruct (decide (type = Some "TEXT")); [| done].
    destruct style as [st|], sl as [sl|]; simpl in Hst; try done.
    erewrite seq_val; [| erewrite seq_val; [| by apply load_style_under]].
    - reflexivity.
    - destruct (fontFamily st) as [f|]; [| done].
      destruct (truthy f); [apply set_add_under | done]. }
  inversion Hr; subst.
  - erewrite seq_val; [| reflexivity].
    erewrite seq_val; [| by apply load_node_under].
    cbn [obj_children obj_type obj_style].
    erewrite seq_val; [| reflexivity]. by apply Hown.
  - erewrite seq_val; [| reflexivity].
    erewrite seq_val; [| by apply load_node_under].
    cbn [obj_children obj_type obj_style].
    erewrite seq_val.
    2:{ erewrite seq_val; [| by apply load_children_under].
        apply for_each_fonts; [done | exact IH |]. by eapply depth_children. }
    by apply Hown.
Qed.

Lemma for_each_texts (fuel : nat) (ls : list loc) (cs : list node) :
  Forall2 (repr h0) ls cs →
  Forall (λ c, ∀ fuel l xs, repr h0 l c → (depth c ≤ fuel)%nat →
               extract_texts fuel l (Some a) (<[a := OList xs]> h0)
               = Val a (<[a := OList (FigmaService.extract_texts c (Some xs))]> h0)) cs →
  Forall (λ c, (depth c ≤ fuel)%nat) cs →
  ∀ xs, for_each (λ child, extract_texts fuel child (Some a) ;; ret tt) ls
          (<[a := OList xs]> h0)
        = Val tt (<[a := OList (foldl (λ texts child,
                                         FigmaService.extract_texts child (Some texts)) xs cs)]> h0).
Proof.
  induction 1 as [|l c ls cs Hc _ IH]; intros Hall Hdepth xs; [done |].
  apply Forall_cons in Hall as [Hcall Hall]. apply Forall_cons in Hdepth as [Hcd Hdepth].
  cbn [for_each foldl].
  erewrite seq_val; [| erewrite seq_val; [reflexivity | by apply Hcall]].
  by apply IH.
Qed.

Lemma extract_texts_on_tree (t : node) :
  ∀ fuel l xs, repr h0 l t → (depth t ≤ fuel)%nat →
    extract_texts fuel l (Some a) (<[a := OList xs]> h0)
    = Val a (<[a := OList (FigmaService.extract_texts t (Some xs))]> h0).
Proof.
  induction t as [name type children style characters IH] using node_nested_ind.
  intros fuel l xs Hr Hd. destruct fuel as [|fuel]; [simpl in Hd; lia |].
  cbn [extract_texts FigmaService.extract_texts default]. change (id xs) with xs.
  assert (Hown : ∀ xs1 : list string,
             ((if decide (type = Some "TEXT") then
                 match characters with
                 | Some c => list_append a c
                 | None => ret tt
                 end
               else ret tt) ;; ret a) (<[a := OList xs1]> h0)
             = Val a (<[a := OList
                 (if decide (type = Some "TEXT") then
                    match characters with
                    | Some c => xs1 ++ [c]
                    | None => xs1
                    end
                  else xs1)]> h0)).
  { intros xs1. destruct (decide (type = Some "TEXT")); [| done].
    destruct characters as [c|]; [| done].
    erewrite seq_val; [reflexivity | apply list_append_under]. }
  inversion Hr; subst.
  - erewrite seq_val; [| reflexivity].
    erewrite seq_val; [| by apply load_node_under].
    cbn [obj_children obj_type obj_characters].
    erewrite seq_val; [| reflexivity]. by apply Hown.
  - erewrite seq_val; [| reflexivity].
    erewrite seq_val; [| by apply load_node_under].
    cbn [obj_children obj_type obj_characters].
    erewrite seq_val.
    2:{ erewrite seq_val; [| by apply load_children_under].
        apply for_each_texts; [done | exact IH |]. by eapply depth_children. }
    by apply Hown.
Qed.

End Accumulator.

Lemma load_node_at (h : heap) (l : loc) (d : node_obj) :
  h !! l = Some (ONode d) → load_node l h = Val d h.
Proof. intros Hl. unfold load_node. by rewrite Hl. Qed.

Lemma load_children_at (h : heap) (l : loc) (ls : list loc) :
  h !! l = Some (OChildren ls) → load_children l h = Val ls h.
Proof. intros Hl. unfold load_children. by rewrite Hl. Qed.

Lemma fold_each_structure (h : heap) (fuel : nat) (level : Z) (ls : list loc)
    (cs : list node) :
  Forall2 (repr h) ls cs →
  Forall (λ c, ∀ fuel l level, repr h l c → (depth c ≤ fuel)%nat →
               get_project_structure fuel l level h
               = lift (FigmaService.get_project_structure c level) h) cs →
  Forall (λ c, (depth c ≤ fuel)%nat) cs →
  ∀ struct,
    fold_each (λ struct child,
                 let* s := get_project_structure fuel child (level + 1) in
                 ret (struct +:+ s)) struct ls h
    = lift (fold_result
              (λ struct child,
                 bind (FigmaService.get_project_structure child (level + 1))
                      (λ s, Ok (struct +:+ s)))
              struct cs) h.
Proof.
  induction 1 as [|l c ls cs Hc _ IH]; intros Hall Hdepth struct; [done |].
  apply Forall_cons in Hall as [Hcall Hall]. apply Forall_cons in Hdepth as [Hcd Hdepth].
  cbn [fold_each fold_result].
  specialize (Hcall fuel l (level + 1) Hc Hcd).
  destruct (FigmaService.get_project_structure c (level + 1)) as [s|e]; simpl in *.
  - erewrite seq_val; [| erewrite seq_val; [reflexivity | exact Hcall]]. by apply IH.
  - erewrite seq_exc; [reflexivity | erewrite seq_exc; [reflexivity | exact Hcall]].
Qed.

(** on a store that holds the tree, [get_project_structure] ends as on the
    tree and leaves the store as it was *)
Lemma get_project_structure_on_tree (h : heap) (t : node) :
  ∀ fuel l level, repr h l t → (depth t ≤ fuel)%nat →
    get_project_structure fuel l level h
    = lift (FigmaService.get_project_structure t level) h.
Proof.
  induction t as [name type children style characters IH] using node_nested_ind.
  intros fuel l level Hr Hd. destruct fuel as [|fuel]; [simpl in Hd; lia |].
  cbn [get_project_structure FigmaService.get_project_structure].
  inversion Hr; subst.
  - erewrite seq_val; [| by apply load_node_at]. cbn [obj_name obj_type obj_children].
    destruct name as [name|]; [| done]. destruct type as [type|]; done.
  - erewrite seq_val; [| by apply load_node_at]. cbn [obj_name obj_type obj_children].
    destruct name as [name|]; [| done]. destruct type as [type|]; [| done].
    cbn [item getitem bind]. erewrite seq_val; [| reflexivity].
    erewrite seq_val; [| reflexivity].
    erewrite seq_val; [| by apply load_children_at].
    apply fold_each_structure; [done | exact IH |]. by eapply depth_children.
Qed.

End OnTree.

(** ** The frame of the extraction operations *)

Section FrameClaim.

Import Heap.

(** C9.  [extract_fonts], [extract_texts] and [get_project_structure]
    only read the node structure.  On any store, with any bound on the
    depth, and whether the call returns or raises, every object that was
    in the store before the call is in it afterwards, unchanged; the two
    collectors add one new object, their result, and
    [get_project_structure] leaves the store as it was.  On a store that
    holds a tree the calls return, with the results of the extractor on
    that tree, and the store still holds the same tree at the same
    address. *)
Theorem extraction_never_mutates :
  (∀ fuel node h h',
     (store_of (extract_fonts fuel node None h) = Some h' → preserved h h')
     ∧ (store_of (extract_texts fuel node None h) = Some h' → preserved h h')
     ∧ (∀ level, store_of (get_project_structure fuel node level h) = Some h' → h' = h))
  ∧ (∀ h l t level,
       repr h l t →
       ∃ fuel fonts texts h1 h2,
         extract_fonts fuel l None h = Val fonts h1
         ∧ h !! fonts = None
         ∧ h1 = <[fonts := OSet (FigmaService.extract_fonts t None)]> h
         ∧ repr h1 l t
         ∧ extract_texts fuel l None h = Val texts h2
         ∧ h !! texts = None
         ∧ h2 = <[texts := OList (FigmaService.extract_texts t None)]> h
         ∧ repr h2 l t
         ∧ get_project_structure fuel l level h
           = lift (FigmaService.get_project_structure t level) h).
Proof.
  split.
  - intros fuel node h h'. split; [apply extract_fonts_preserves |].
    split; [apply extract_texts_preserves |].
    intros level Hout.
    pose proof (read_only_get_project_structure fuel node level h) as Hro.
    destruct (get_project_structure fuel node level h); simpl in Hout; by simplify_eq.
  - intros h l t level Hr.
    pose proof (fresh_unused h) as Hfresh.
    exists (depth t), (fresh (dom h)), (fresh (dom h)). eexists _, _.
    assert (Hpos : ∃ n, depth t = S n) by (destruct t; simpl; eauto).
    destruct Hpos as [n Hn].
    assert (Hkeep : ∀ o, preserved h (<[fresh (dom h) := o]> h)).
    { intros o x ox Hx. rewrite lookup_insert_ne; [done |]. intros <-. congruence. }
    split; [| split; [done | split; [reflexivity | split; [| split; [| split;
      [done | split; [reflexivity | split]]]]]]].
    + rewrite Hn.
      change (extract_fonts (S n) l None h)
        with (extract_fonts (S n) l (Some (fresh (dom h))) (<[fresh (dom h) := OSet ∅]> h)).
      rewrite (extract_fonts_on_tree h (fresh (dom h)) Hfresh t (S n) l ∅ Hr) by lia.
      by rewrite <- extract_fonts_None.
    + by eapply repr_preserved.
    + rewrite Hn.
      change (extract_texts (S n) l None h)
        with (extract_texts (S n) l (Some (fresh (dom h))) (<[fresh (dom h) := OList []]> h)).
      rewrite (extract_texts_on_tree h (fresh (dom h)) Hfresh t (S n) l [] Hr) by lia.
      by rewrite <- extract_texts_None.
    + by eapply repr_preserved.
    + by apply get_project_structure_on_tree.
Qed.

End FrameClaim.

Section FrameWitness.

Import Heap Samples.

Lemma extraction_never_mutates_witness :
  (∃ h', store_of (extract_fonts 2 1%positive None broken_store) = Some h'
         ∧ preserved broken_store h')
  ∧ ∃ fuel fonts texts h1 h2,
      extract_fonts fuel 1%positive None sample_store = Val fonts h1
      ∧ sample_store !! fonts = None
      ∧ h1 = <[fonts := OSet (FigmaService.extract_fonts sample_tree None)]> sample_store
      ∧ repr h1 1%positive sample_tree
      ∧ extract_texts fuel 1%positive None sample_store = Val texts h2
      ∧ sample_store !! texts = None
      ∧ h2 = <[texts := OList (FigmaService.extract_texts sample_tree None)]> sample_store
      ∧ repr h2 1%positive sample_tree
      ∧ get_project_structure fuel 1%positive 0 sample_store
        = lift (FigmaService.get_project_structure sample_tree 0) sample_store.
Proof.
  split.
  - eexists. split; [reflexivity |].
    apply (proj1 (proj1 extraction_never_mutates 2%nat 1%positive broken_store _)).
    reflexivity.
  - apply (proj2 extraction_never_mutates sample_store 1%positive sample_tree 0).
    eapply repr_inner; [reflexivity | reflexivity | | exact I].
    constructor; [| constructor].
    eapply repr_inner; [reflexivity | reflexivity | | exact I].
    constructor; [| constructor].
    eapply repr_leaf; [reflexivity | reflexivity].
Defined.

End FrameWitness.

(** * Further properties *)

(** ** From the labels to the diagram *)

Section DiagramFlow.

Import DiagramService.

Lemma bind_ok_inv {A B} (r : result A) (k : A → result B) (b : B) :
  bind r k = Ok b → ∃ a, r = Ok a ∧ k a = Ok b.
Proof. destruct r as [a|e]; simpl; [eauto | done]. Qed.


Lemma create_ascii_box_dyn_str (s : string) (w : Z) :
  create_ascii_box_dyn (PStr s) w = Ok (create_ascii_box s (Some w)).
Proof. reflexivity. Qed.

Lemma widths_of_strings (labels : list string) (acc : list Z) :
  fold_result (λ widths comp, bind (pylen comp) (λ n, Ok (widths ++ [n + 4])))
    acc (PStr <$> labels)
  = Ok (acc ++ ((λ comp, len comp + 4) <$> labels)).
Proof.
  revert acc. induction labels as [|l labels IH]; intros acc.
  - simpl. by rewrite app_nil_r.
  - rewrite !fmap_cons. cbn [fold_result pylen bind]. rewrite IH.
    by rewrite <- app_assoc.
Qed.

Lemma box_loop_dyn_strings (n w i : Z) (rest : list string) (acc : list string) :
  box_loop_dyn n w i (PStr <$> rest) acc = Ok (box_loop n w i rest acc).
Proof.
  revert i acc. induction rest as [|l rest IH]; intros i acc; [done |].
  rewrite fmap_cons. cbn [box_loop_dyn box_loop].
  rewrite create_ascii_box_dyn_str. cbn [bind]. apply IH.
Qed.

(** on a list of strings the diagram is the one of [create_box_diagram] *)
Lemma create_box_diagram_dyn_strings (labels : list string) :
  create_box_diagram_dyn (PList (PStr <$> labels)) = create_box_diagram labels.
Proof.
  unfold create_box_diagram_dyn, create_box_diagram, box_diagram_lines.
  cbn [iterate bind]. rewrite widths_of_strings, app_nil_l. cbn [bind].
  destruct (max_of _) as [m|e]; [| done]. cbn [bind pylen].
  rewrite box_loop_dyn_strings, length_fmap. done.
Qed.


Lemma slice6_list_length (v : pyval) (l : list pyval) :
  slice6 v = Ok (PList l) → (length l ≤ 6)%nat.
Proof.
  destruct v; simpl; try done. intros [= <-]. rewrite length_take. lia.
Qed.

Lemma fallback_list_length (figma_data : figma_data_dict) (ai_analysis : ai_analysis_dict)
    (components : pyval) (l : list pyval) :
  fallback figma_data ai_analysis components = Ok (PList l) → (1 ≤ length l ≤ 6)%nat.
Proof.
  intros Hfb. split.
  - destruct l; [| simpl; lia].
    by apply fallback_not_empty in Hfb.
  - unfold fallback in Hfb.
    repeat (apply bind_ok_inv in Hfb as (? & _ & Hfb)).
    by eapply slice6_list_length.
Qed.

(** X1.  Whenever the deriver returns a list, with or without a language
    model and whatever the model answers, the list has between one and six
    items. *)
Theorem deriver_list_length (json_loads : string → result pyval)
    (llm_service : option (string → result string))
    (figma_data : figma_data_dict) (ai_analysis : ai_analysis_dict) (l : list pyval) :
  extract_components_from_figma json_loads llm_service figma_data ai_analysis = Ok (PList l) →
  (1 ≤ length l ≤ 6)%nat.
Proof.
  unfold extract_components_from_figma.
  destruct (llm_path _ _ _ _) as [v|components printed] eqn:Hpath.
  - intros [= ->]. unfold llm_path in Hpath.
    destruct llm_service as [svc|]; [| done].
    destruct (svc _) as [response|e]; [| done]. cbn zeta in Hpath.
    destruct (json_loads _) as [[| | | | |items|]|e]; try done.
    destruct (3 <=? length items)%nat eqn:Hlen; [| done].
    injection Hpath as <-. apply Nat.leb_le in Hlen.
    rewrite length_take. lia.
  - apply fallback_list_length.
Qed.

Lemma deriver_list_length_witness :
  (1 ≤ length [PStr "Dashboard User"; PStr "Home Interface"; PStr "Settings Interface"] ≤ 6)%nat.
Proof.
  apply (deriver_list_length Samples.json_loads_sample None
           Samples.dashboard_data Samples.dashboard_analysis).
  reflexivity.
Defined.


End DiagramFlow.

Section DiagramFlowErrors.

Import DiagramService Samples.



(** X5.  When the model answers with a list of three or more strings, the
    diagram is the box diagram of its first six. *)
Theorem generate_ascii_diagram_with_llm (json_loads : string → result pyval)
    (figma_data : figma_data_dict) (ai_analysis : ai_analysis_dict)
    (svc : string → result string) (response : string) (labels : list string) :
  svc (prompt figma_data ai_analysis) = Ok response →
  json_loads (clean_response response) = Ok (PList (PStr <$> labels)) →
  (3 ≤ length labels)%nat →
  generate_ascii_diagram json_loads (Some svc) figma_data ai_analysis
  = create_box_diagram (take 6 labels)
  ∧ ∃ lines,
      box_diagram_lines (take 6 labels) = Ok lines
      ∧ (length lines + 2 = 5 * (length labels `min` 6))%nat.
Proof.
  intros Hsvc Hjson Hlen. split.
  - unfold generate_ascii_diagram.
    rewrite (deriver_accepts json_loads figma_data ai_analysis svc response _ Hsvc Hjson)
      by (rewrite length_fmap; lia).
    cbn [bind]. rewrite <- fmap_take. apply create_box_diagram_dyn_strings.
  - destruct (take 6 labels) as [|l rest] eqn:Htake.
    { apply (f_equal length) in Htake. rewrite length_take in Htake.
      cbn [length] in Htake. lia. }
    exists (boxes_and_arrows (uniform_width (l :: rest)) (l :: rest)).
    split; [apply box_diagram_lines_closed |].
    rewrite length_boxes_and_arrows by done.
    rewrite <- Htake, length_take. lia.
Qed.

Lemma generate_ascii_diagram_with_llm_witness :
  generate_ascii_diagram json_loads_sample (Some (λ _, Ok three_items_fenced))
    dashboard_data dashboard_analysis
  = create_box_diagram (take 6 ["UI"; "API"; "DB"])
  ∧ ∃ lines,
      box_diagram_lines (take 6 ["UI"; "API"; "DB"]) = Ok lines
      ∧ (length lines + 2 = 5 * (length ["UI"; "API"; "DB"] `min` 6))%nat.
Proof.
  apply (generate_ascii_diagram_with_llm json_loads_sample dashboard_data dashboard_analysis
           (λ _, Ok three_items_fenced) three_items_fenced ["UI"; "API"; "DB"]).
  - reflexivity.
  - reflexivity.
  - simpl. lia.
Defined.













End DiagramFlowErrors.

(** ** The arrow under a box *)

Section ArrowGeometry.

Import DiagramService.

(** X6.  In a box of width [w] around a non-empty label, the column of the
    arrow below, [(w - 1) // 2], is a column the label occupies: the shaft
    always points at a character of the label. *)
Theorem arrow_points_at_label (text : string) (w : Z) :
  1 ≤ len text →
  len text + 4 ≤ w →
  let pad := (w - 2 - len text) / 2 in
  let rest := w - 2 - len text - pad in
  let c := (w - 1) / 2 in
  create_ascii_box text (Some w) !! 1%nat
  = Some ("|" +:+ (str_mul " " pad +:+ text +:+ str_mul " " rest) +:+ "|")
  ∧ create_vertical_arrow w = [str_mul " " c +:+ "|"; str_mul " " c +:+ "v"]
  ∧ len (str_mul " " c) = c
  ∧ len ("|" +:+ str_mul " " pad) ≤ c
  ∧ c < len ("|" +:+ str_mul " " pad +:+ text).
Proof.
  intros Htext Hw pad rest c. split; [| split; [done |]].
  - unfold create_ascii_box. rewrite Z.max_l by done. done.
  - rewrite !len_append, !len_str_mul_char. change (len "|") with 1.
    subst pad c. repeat split; Z.to_euclidean_division_equations; lia.
Qed.

Lemma arrow_points_at_label_witness :
  create_ascii_box "API" (Some 20) !! 1%nat
  = Some ("|" +:+ (str_mul " " ((20 - 2 - len "API") / 2) +:+ "API"
                   +:+ str_mul " " (20 - 2 - len "API" - (20 - 2 - len "API") / 2)) +:+ "|")
  ∧ create_vertical_arrow 20
    = [str_mul " " ((20 - 1) / 2) +:+ "|"; str_mul " " ((20 - 1) / 2) +:+ "v"]
  ∧ len (str_mul " " ((20 - 1) / 2)) = (20 - 1) / 2
  ∧ len ("|" +:+ str_mul " " ((20 - 2 - len "API") / 2)) ≤ (20 - 1) / 2
  ∧ (20 - 1) / 2 < len ("|" +:+ str_mul " " ((20 - 2 - len "API") / 2) +:+ "API").
Proof. apply (arrow_points_at_label "API" 20); vm_compute; congruence. Defined.

End ArrowGeometry.

(** ** The features and the hierarchy dump *)

Section Features.

Import FigmaService DiagramService.

Lemma get_features_fold (cs : list node) (features : list string) :
  Forall (λ c, is_Some (node_type c)
               ∧ (node_type c = Some "CANVAS" → is_Some (node_name c))) cs →
  fold_result
    (λ features child,
       bind (getitem "type" (node_type child)) (λ type,
         if decide (type = "CANVAS")
         then bind (getitem "name" (node_name child)) (λ name, Ok (features ++ [name]))
         else Ok features))
    features cs
  = Ok (features ++ ((λ child, default "" (node_name child))
                       <$> filter (λ child, node_type child = Some "CANVAS") cs)).
Proof.
  intros Hall. revert features.
  induction Hall as [|c cs [[ty Hty] Hname] _ IH]; intros features.
  - simpl. by rewrite app_nil_r.
  - cbn [fold_result]. rewrite Hty. cbn [getitem bind]. rewrite filter_cons.
    destruct (decide (ty = "CANVAS")) as [->|Hne].
    + destruct (Hname Hty) as [name Hn]. rewrite Hn. cbn [getitem bind].
      rewrite IH, decide_True by done. rewrite fmap_cons, Hn, <- app_assoc. done.
    + rewrite IH, decide_False by congruence. done.
Qed.

(** X7.  On a document whose children all have a type, and whose canvases
    all have a name, [get_features] returns the names of the canvases in
    document order: the same list as the pages the label deriver reads. *)
Theorem get_features_are_pages (project : option string) (document : node) :
  Forall (λ c, is_Some (node_type c)
               ∧ (node_type c = Some "CANVAS" → is_Some (node_name c)))
    (default [] (node_children document)) →
  get_features document = Ok (pages_of (FigmaData project (Some document))).
Proof.
  intros Hall. unfold get_features. rewrite (get_features_fold _ [] Hall), app_nil_l.
  unfold pages_of. cbn [figma_document]. by destruct (node_children document).
Qed.

Lemma get_features_are_pages_witness :
  get_features Samples.sample_tree
  = Ok (pages_of (FigmaData (Some "Shop") (Some Samples.sample_tree))).
Proof.
  apply (get_features_are_pages (Some "Shop") Samples.sample_tree).
  repeat constructor; simpl; eauto.
Defined.

(** X8.  [get_features] raises [KeyError] at the first child that has no
    type, and at the first canvas that has no name; the children after it
    are not looked at. *)
Theorem get_features_missing_key (document : node) (before after : list node) (c : node) :
  node_children document = Some (before ++ c :: after) →
  Forall (λ c, is_Some (node_type c)
               ∧ (node_type c = Some "CANVAS" → is_Some (node_name c))) before →
  (node_type c = None → get_features document = Raise (Exn KeyError "'type'"))
  ∧ (node_type c = Some "CANVAS" → node_name c = None →
     get_features document = Raise (Exn KeyError "'name'")).
Proof.
  intros Hch Hbefore. unfold get_features. rewrite Hch. cbn [default].
  assert (Hsplit : ∀ f (a : list string) (xs ys : list node) (r : list string),
            fold_result f a xs = Ok r →
            fold_result f a (xs ++ ys) = fold_result f r ys).
  { intros f a xs. revert a. induction xs as [|x xs IH]; intros a ys r; simpl.
    - by intros [= ->].
    - destruct (f a x); [apply IH | done]. }
  change (id (before ++ c :: after)) with (before ++ c :: after).
  erewrite Hsplit; [| by apply get_features_fold].
  cbn [fold_result]. split.
  - intros ->. done.
  - intros -> ->. done.
Qed.

Lemma get_features_missing_key_witness :
  get_features (Node (Some "Document") (Some "DOCUMENT")
                  (Some ([Samples.canvas "Home"]
                         ++ Node (Some "Cover") None None None None
                         :: [Samples.canvas "Settings"]))
                  None None)
  = Raise (Exn KeyError "'type'")
  ∧ get_features (Node (Some "Document") (Some "DOCUMENT")
                    (Some ([Samples.canvas "Home"]
                           ++ Node None (Some "CANVAS") None None None
                           :: [Samples.canvas "Settings"]))
                    None None)
    = Raise (Exn KeyError "'name'").
Proof.
  split.
  - apply (proj1 (get_features_missing_key
                    (Node (Some "Document") (Some "DOCUMENT")
                       (Some ([Samples.canvas "Home"]
                              ++ Node (Some "Cover") None None None None
                              :: [Samples.canvas "Settings"]))
                       None None)
                    [Samples.canvas "Home"] [Samples.canvas "Settings"]
                    (Node (Some "Cover") None None None None)
                    eq_refl ltac:(repeat constructor; simpl; eauto))).
    reflexivity.
  - apply (proj2 (get_features_missing_key
                    (Node (Some "Document") (Some "DOCUMENT")
                       (Some ([Samples.canvas "Home"]
                              ++ Node None (Some "CANVAS") None None None
                              :: [Samples.canvas "Settings"]))
                       None None)
                    [Samples.canvas "Home"] [Samples.canvas "Settings"]
                    (Node None (Some "CANVAS") None None None)
                    eq_refl ltac:(repeat constructor; simpl; eauto))).
    + reflexivity.
    + reflexivity.
Defined.

End Features.

Section Outline.

Import FigmaService.

Lemma append_empty_r (s : string) : s +:+ "" = s.
Proof.
  induction s as [|c s IH]; [done |].
  change (String c (s +:+ "") = String c s). by rewrite IH.
Qed.

Lemma concat_strings_app (a b : list string) :
  concat_strings (a ++ b) = concat_strings a +:+ concat_strings b.
Proof.
  induction a as [|x a IH]; [done |].
  change (x +:+ concat_strings (a ++ b) = (x +:+ concat_strings a) +:+ concat_strings b).
  by rewrite IH, append_assoc.
Qed.

Lemma Forall_postorder_children (P : node → Prop) (cs : list node) :
  Forall P (concat (map postorder cs)) ↔ Forall (λ c, Forall P (postorder c)) cs.
Proof.
  induction cs as [|c cs IH]; simpl.
  - split; constructor.
  - rewrite Forall_app, Forall_cons, IH. done.
Qed.

Lemma structure_fold_ok (level : Z) (cs : list node) (struct : string) :
  Forall (λ c, get_project_structure c (level + 1)
               = Ok (concat_strings (outline_lines (level + 1) c))) cs →
  fold_result
    (λ struct child,
       bind (get_project_structure child (level + 1)) (λ s, Ok (struct +:+ s)))
    struct cs
  = Ok (struct +:+ concat_strings (concat (map (outline_lines (level + 1)) cs))).
Proof.
  intros Hall. revert struct. induction Hall as [|c cs Hc _ IH]; intros struct.
  - simpl. by rewrite append_empty_r.
  - cbn [fold_result]. rewrite Hc. cbn [bind]. rewrite IH.
    cbn [map concat]. by rewrite concat_strings_app, append_assoc.
Qed.

(** when every node has a name and a type, the dump is made of the lines
    of the nodes *)
Lemma get_project_structure_labelled (n : node) :
  ∀ level, Forall labelled (postorder n) →
    get_project_structure n level = Ok (concat_strings (outline_lines level n)).
Proof.
  induction n as [name type children style characters IH] using node_nested_ind.
  intros level Hall. cbn [postorder] in Hall.
  apply Forall_app in Hall as [Hcs Hn]. apply Forall_singleton in Hn as [[nm Hnm] [ty Hty]].
  simpl in Hnm, Hty. subst name type.
  cbn [get_project_structure getitem bind outline_lines].
  unfold outline_line. cbn [node_name node_type default].
  change (id nm) with nm. change (id ty) with ty.
  destruct children as [cs|];
    [| cbn [concat_strings foldr]; by rewrite append_empty_r].
  rewrite structure_fold_ok.
  - done.
  - apply Forall_postorder_children in Hcs. simpl in IH.
    rewrite Forall_forall in IH, Hcs. apply Forall_forall. intros c Hc.
    apply IH; [done |]. by apply Hcs.
Qed.

Lemma structure_fold_inv (level : Z) (cs : list node) (struct s : string) :
  fold_result
    (λ struct child,
       bind (get_project_structure child (level + 1)) (λ s, Ok (struct +:+ s)))
    struct cs = Ok s →
  Forall (λ c, ∃ s', get_project_structure c (level + 1) = Ok s') cs.
Proof.
  revert struct. induction cs as [|c cs IH]; intros struct; [constructor |].
  cbn [fold_result]. destruct (get_project_structure c (level + 1)) as [s'|e] eqn:Hc;
    cbn [bind]; [| done].
  intros Hfold. constructor; [by eexists | by eapply IH].
Qed.

(** the dump is returned only when every node has a name and a type *)
Lemma get_project_structure_ok_labelled (n : node) :
  ∀ level s, get_project_structure n level = Ok s → Forall labelled (postorder n).
Proof.
  induction n as [name type children style characters IH] using node_nested_ind.
  intros level s Hs. cbn [get_project_structure] in Hs.
  destruct name as [nm|]; [| done]. destruct type as [ty|]; [| done].
  cbn [getitem bind] in Hs. cbn [postorder]. apply Forall_app. split.
  - destruct children as [cs|]; [| constructor].
    apply Forall_postorder_children. apply structure_fold_inv in Hs.
    simpl in IH. rewrite Forall_forall in IH, Hs. apply Forall_forall. intros c Hc.
    destruct (Hs c Hc) as [s' Hs']. by eapply IH.
  - apply Forall_singleton. split; by eexists.
Qed.

Lemma structure_fold_raise (level : Z) (cs : list node) (struct : string) (e : exn) :
  Forall (λ c, ∀ e, get_project_structure c (level + 1) = Raise e → exn_cls e = KeyError) cs →
  fold_result
    (λ struct child,
       bind (get_project_structure child (level + 1)) (λ s, Ok (struct +:+ s)))
    struct cs = Raise e →
  exn_cls e = KeyError.
Proof.
  intros Hall. revert struct. induction Hall as [|c cs Hc _ IH]; intros struct; [done |].
  cbn [fold_result]. destruct (get_project_structure c (level + 1)) as [s'|e'] eqn:Hgc;
    cbn [bind].
  - apply IH.
  - intros [= <-]. by apply Hc.
Qed.

(** the only exception of the dump is [KeyError] *)
Lemma get_project_structure_raise_class (n : node) :
  ∀ level e, get_project_structure n level = Raise e → exn_cls e = KeyError.
Proof.
  induction n as [name type children style characters IH] using node_nested_ind.
  intros level e He. cbn [get_project_structure] in He.
  destruct name as [nm|]; [| by injection He as <-].
  destruct type as [ty|]; [| by injection He as <-].
  cbn [getitem bind] in He. destruct children as [cs|]; [| done].
  eapply structure_fold_raise; [| exact He]. simpl in IH.
  eapply Forall_impl; [exact IH |]. intros c Hc e'. apply Hc.
Qed.

Lemma length_outline_lines (n : node) :
  ∀ level, length (outline_lines level n) = length (postorder n).
Proof.
  induction n as [name type children style characters IH] using node_nested_ind.
  intros level. cbn [outline_lines postorder]. rewrite length_app. cbn [length].
  destruct children as [cs|]; [| done]. simpl in IH.
  assert (length (concat (map (outline_lines (level + 1)) cs))
          = length (concat (map postorder cs))) as ->; [| lia].
  induction IH as [|c cs Hc _ IHcs]; [done |].
  cbn [map concat]. by rewrite !length_app, Hc, IHcs.
Qed.

(** X9.  [get_project_structure] returns the dump exactly when every node
    of the tree has a name and a type; the dump then has one line per node,
    a node before its children, indented by two spaces per level.  When a
    node lacks a name or a type the call raises [KeyError], and it raises
    nothing else. *)
Theorem get_project_structure_outline (t : node) (level : Z) :
  (Forall labelled (postorder t) →
   get_project_structure t level = Ok (concat_strings (outline_lines level t)))
  ∧ (∀ s, get_project_structure t level = Ok s → Forall labelled (postorder t))
  ∧ (∀ e, get_project_structure t level = Raise e → exn_cls e = KeyError)
  ∧ length (outline_lines level t) = length (postorder t)
  ∧ head (outline_lines level t)
    = Some (str_mul "  " level +:+ default "" (node_name t) +:+ " ("
            +:+ default "" (node_type t) +:+ ")" +:+ nl).
Proof.
  split; [apply get_project_structure_labelled |].
  split; [apply get_project_structure_ok_labelled |].
  split; [apply get_project_structure_raise_class |].
  split; [apply length_outline_lines |]. by destruct t.
Qed.

Lemma get_project_structure_outline_witness :
  get_project_structure Samples.sample_tree 0
  = Ok (concat_strings (outline_lines 0 Samples.sample_tree))
  ∧ Forall labelled (postorder Samples.sample_tree)
  ∧ exn_cls (Exn KeyError "'name'") = KeyError.
Proof.
  split; [| split].
  - apply (proj1 (get_project_structure_outline Samples.sample_tree 0)).
    repeat constructor; simpl; eauto.
  - apply (proj1 (proj2 (get_project_structure_outline Samples.sample_tree 0))
             (concat_strings (outline_lines 0 Samples.sample_tree))).
    reflexivity.
  - apply (proj1 (proj2 (proj2 (get_project_structure_outline
                                  (Node None (Some "FRAME") None None None) 0)))).
    reflexivity.
Defined.

End Outline.

(** ** The file key of a link *)

Section ParseKey.

Import FigmaService.

Lemma split_lacks (c : ascii) (s : string) : lacks c s → split c s = [s].
Proof.
  induction s as [|a s IH]; [done |].
  intros [Ha Hs]. cbn [split]. rewrite decide_False by done. by rewrite IH.
Qed.

Lemma split_app_char (c : ascii) (a b : string) :
  lacks c a → split c (a +:+ String c b) = a :: split c b.
Proof.
  induction a as [|x a IH].
  - intros _. change (split c (String c b) = "" :: split c b).
    cbn [split]. by rewrite decide_True.
  - intros [Hx Ha]. change (split c (String x (a +:+ String c b)) = String x a :: split c b).
    cbn [split]. rewrite decide_False by done. by rewrite IH.
Qed.


Lemma index_of_app (m : string) (pre rest : list string) :
  m ∉ pre → index_of m (pre ++ m :: rest) = length pre.
Proof.
  induction pre as [|y pre IH]; intros Hpre.
  - simpl. by rewrite decide_True.
  - apply not_elem_of_cons in Hpre as [Hne Hpre].
    cbn [app index_of length]. rewrite decide_False by done. by rewrite IH.
Qed.


(** the part after the first occurrence of the marker, if there is one *)
Lemma key_after_app (m : string) (pre rest : list string) :
  m ∉ pre → key_after m (pre ++ m :: rest) = head rest.
Proof.
  intros Hpre. unfold key_after.
  rewrite decide_True by (apply elem_of_app; right; apply elem_of_cons; by left).
  cbn zeta. rewrite index_of_app by done. rewrite length_app.
  destruct rest as [|k post]; cbn [length].
  - replace (length pre + 1 <? length pre + 1)%nat with false
      by (symmetry; apply Nat.ltb_ge; lia). done.
  - replace (length pre + 1 <? length pre + S (S (length post)))%nat with true
      by (symmetry; apply Nat.ltb_lt; lia).
    rewrite lookup_app_r by lia.
    replace (length pre + 1 - length pre)%nat with 1%nat by lia. done.
Qed.

Lemma key_after_absent (m : string) (l : list string) : m ∉ l → key_after m l = None.
Proof. intros Hm. unfold key_after. by rewrite decide_False. Qed.


Local Ltac not_in_list :=
  let H := fresh "Hin" in
  intros H; repeat (apply elem_of_cons in H as [H|H]; [congruence |]);
  by apply elem_of_nil in H.

(** X10.  A path [/file/KEY/...] gives back [KEY], whatever follows it, and
    so does a path that is exactly [/file/KEY], [/design/KEY] or [/make/KEY],
    for every key without a slash. *)
Theorem parse_figma_key_round_trip (url_path : string → string) (link key : string) :
  lacks "/"%char key →
  (∃ tail, url_path link = "/file/" +:+ key +:+ "/" +:+ tail)
  ∨ (∃ marker, marker ∈ ["file"; "design"; "make"]
               ∧ url_path link = "/" +:+ marker +:+ "/" +:+ key) →
  parse_figma_key url_path link = Ok key.
Proof.
  intros Hkey [[tail Hp] | (marker & Hm & Hp)]; unfold parse_figma_key; rewrite Hp;
    cbn zeta.
  - assert (split "/"%char ("/file/" +:+ key +:+ "/" +:+ tail)
            = [""] ++ "file" :: key :: split "/"%char tail) as ->.
    { change ("/file/" +:+ key +:+ "/" +:+ tail)
        with ("" +:+ String "/"%char ("file" +:+ String "/"%char (key +:+ String "/"%char tail))).
      rewrite !split_app_char; done. }
    rewrite key_after_app; [done | not_in_list].
  - assert (Hsplit : ∀ m, lacks "/"%char m →
              split "/"%char ("/" +:+ m +:+ "/" +:+ key) = ["" ; m; key]).
    { intros m Hlm.
      change ("/" +:+ m +:+ "/" +:+ key)
        with ("" +:+ String "/"%char (m +:+ String "/"%char key)).
      rewrite !split_app_char, split_lacks; done. }
    assert (Hlast : ∀ m m', m ≠ m' → m ≠ "" → key_after m ["" ; m'; key] = None).
    { intros m m' Hne He. destruct (decide (key = m)) as [->|Hk].
      - change ["" ; m'; m] with (["" ; m'] ++ m :: []).
        rewrite key_after_app; [done | not_in_list].
      - apply key_after_absent. not_in_list. }
    assert (Hfirst : ∀ m, m ≠ "" → key_after m ["" ; m; key] = Some key).
    { intros m He. change ["" ; m; key] with ([""] ++ m :: key :: []).
      rewrite key_after_app; [done | not_in_list]. }
    repeat (apply elem_of_cons in Hm as [->|Hm]); [| | | by apply elem_of_nil in Hm].
    + rewrite Hsplit by (repeat split; by vm_compute). by rewrite Hfirst.
    + rewrite Hsplit by (repeat split; by vm_compute).
      rewrite Hlast by done. by rewrite Hfirst.
    + rewrite Hsplit by (repeat split; by vm_compute).
      rewrite !Hlast by done. by rewrite Hfirst.
Qed.

Lemma parse_figma_key_round_trip_witness :
  parse_figma_key (λ _, "/design/AbC123xyz") "https://www.figma.com/design/AbC123xyz"
  = Ok "AbC123xyz".
Proof.
  apply (parse_figma_key_round_trip (λ _, "/design/AbC123xyz")
           "https://www.figma.com/design/AbC123xyz" "AbC123xyz").
  - repeat split; by vm_compute.
  - right. exists "design". split; [| reflexivity].
    apply elem_of_cons. right. apply elem_of_cons. by left.
Defined.





End ParseKey.

(** ** The lines of a long step *)

Section Wrapping.

Import PDFService.

Lemma words_from_app_space (a b : string) (c : ascii) (current : string) :
  isspace c = true →
  words_from (a +:+ String c b) current = words_from a current ++ words_from b "".
Proof.
  intros Hc. revert current. induction a as [|x a IH]; intros current.
  - change (words_from (String c b) current = words_from "" current ++ words_from b "").
    cbn [words_from]. by rewrite Hc.
  - change (words_from (String x (a +:+ String c b)) current
            = words_from (String x a) current ++ words_from b "").
    cbn [words_from]. destruct (isspace x).
    + by rewrite IH, app_assoc.
    + apply IH.
Qed.

Lemma words_from_space_free (w current : string) :
  space_free w →
  words_from w current = if truthy (current +:+ w) then [current +:+ w] else [].
Proof.
  revert current. induction w as [|x w IH]; intros current.
  - intros _. cbn [words_from]. by rewrite append_empty_r.
  - intros [Hx Hw]. cbn [words_from]. rewrite Hx, IH by done.
    by rewrite append_assoc.
Qed.

Lemma words_from_current (s current : string) :
  space_free current →
  Forall (λ w, w ≠ "" ∧ space_free w) (words_from s current).
Proof.
  revert current. induction s as [|x s IH]; intros current Hcur; cbn [words_from].
  - destruct current; cbn [truthy]; [apply Forall_nil_2 |].
    apply Forall_cons_2; [by split | apply Forall_nil_2].
  - destruct (isspace x) eqn:Hx.
    + apply Forall_app. split; [| by apply IH].
      destruct current; cbn [truthy]; [apply Forall_nil_2 |].
      apply Forall_cons_2; [by split | apply Forall_nil_2].
    + apply IH. clear IH. induction current as [|y cur IHc]; [done |].
      destruct Hcur as [Hy Hcur]. split; [done | by apply IHc].
Qed.

(** the words of a string are non-empty and hold no whitespace *)
Lemma words_are_words (s : string) : Forall (λ w, w ≠ "" ∧ space_free w) (words s).
Proof. by apply words_from_current. Qed.

Lemma words_of_word (w : string) : w ≠ "" → space_free w → words w = [w].
Proof.
  intros Hne Hw. unfold words. rewrite words_from_space_free by done.
  by destruct w.
Qed.

(** a line that ends a word: what is appended starts a new one *)
Lemma extend_line (line w : string) :
  (∀ x, words (line +:+ x) = words line ++ words x) →
  (∀ x, words ((line +:+ w +:+ " ") +:+ x) = words (line +:+ w +:+ " ") ++ words x)
  ∧ words (line +:+ w +:+ " ") = words line ++ words w.
Proof.
  intros Hline.
  assert (Hw : ∀ x, words (w +:+ String " "%char x) = words w ++ words x).
  { intros x. unfold words. by rewrite words_from_app_space. }
  assert (Hlw : words (line +:+ w +:+ " ") = words line ++ words w).
  { rewrite Hline. change (w +:+ " ") with (w +:+ String " "%char "").
    rewrite Hw. by rewrite app_nil_r. }
  split; [| done]. intros x. rewrite Hlw, !append_assoc, Hline.
  change (w +:+ " " +:+ x) with (w +:+ String " "%char x). by rewrite Hw, app_assoc.
Qed.

Lemma indent_line (w : string) :
  (∀ x, words (("  " +:+ w +:+ " ") +:+ x) = words ("  " +:+ w +:+ " ") ++ words x)
  ∧ words ("  " +:+ w +:+ " ") = words w.
Proof.
  assert (Hindent : ∀ x, words ("  " +:+ x) = words x) by done.
  destruct (extend_line "" w) as [H1 H2]; [done |].
  split.
  - intros x. rewrite !append_assoc, !Hindent. rewrite <- append_assoc. apply H1.
  - rewrite Hindent. apply H2.
Qed.

Lemma wrap_loop_words (ws : list string) (line : string) :
  Forall (λ w, w ≠ "" ∧ space_free w) ws →
  (∀ x, words (line +:+ x) = words line ++ words x) →
  concat (words <$> wrap_loop ws line) = words line ++ ws.
Proof.
  intros Hws. revert line. induction Hws as [|w ws [Hne Hw] _ IH]; intros line Hline.
  - cbn [wrap_loop]. destruct line as [|c line]; [done |].
    cbn [truthy fmap list_fmap concat]. by rewrite !app_nil_r.
  - cbn [wrap_loop]. destruct (len (line +:+ w) <? 85).
    + destruct (extend_line line w Hline) as [Hclosed Hwords].
      rewrite IH by done. rewrite Hwords, (words_of_word w) by done.
      by rewrite <- app_assoc.
    + destruct (indent_line w) as [Hclosed Hwords].
      rewrite fmap_cons. cbn [concat]. rewrite IH by done.
      by rewrite Hwords, (words_of_word w) by done.
Qed.

(** X13.  Laying out a step loses no word: the words of the drawn lines, in
    order, are the words of the step, whether the step is wrapped or drawn
    as it is. *)
Theorem draw_step_keeps_words (step : string) :
  concat (words <$> draw_step step) = words step.
Proof.
  unfold draw_step. destruct (85 <? len step).
  - rewrite wrap_loop_words; [done | apply words_are_words | done].
  - cbn [fmap list_fmap concat]. by rewrite app_nil_r.
Qed.

Lemma wrap_loop_bound (ws : list string) (line : string) :
  len line ≤ 85 →
  Forall (λ w, len w ≤ 82) ws →
  Forall (λ l, len l ≤ 85) (wrap_loop ws line).
Proof.
  intros Hline Hws. revert line Hline.
  induction Hws as [|w ws Hw _ IH]; intros line Hline; cbn [wrap_loop].
  - destruct (truthy line); by repeat constructor.
  - destruct (len (line +:+ w) <? 85) eqn:Hfit.
    + apply IH. apply Z.ltb_lt in Hfit. rewrite len_append in Hfit.
      rewrite !len_append. change (len " ") with 1. lia.
    + constructor; [done |]. apply IH.
      rewrite !len_append. change (len "  ") with 2. change (len " ") with 1. lia.
Qed.

(** X14.  When no word of a step is longer than 82 characters, no line
    drawn for it is longer than 85 characters. *)
Theorem draw_step_line_length (step : string) :
  Forall (λ w, len w ≤ 82) (words step) →
  Forall (λ l, len l ≤ 85) (draw_step step).
Proof.
  intros Hws. unfold draw_step. destruct (85 <? len step) eqn:Hlong.
  - by apply wrap_loop_bound.
  - apply Z.ltb_ge in Hlong. by repeat constructor.
Qed.

Lemma draw_step_line_length_witness :
  Forall (λ l, len l ≤ 85)
    (draw_step "Step 3: Implement the 'Login' feature in the frontend using Streamlit components (e.g., buttons, forms based on Figma design).").
Proof.
  apply draw_step_line_length.
  apply (bool_decide_unpack
           (Forall (λ w, len w ≤ 82)
              (words "Step 3: Implement the 'Login' feature in the frontend using Streamlit components (e.g., buttons, forms based on Figma design)."))).
  vm_compute. exact I.
Defined.

End Wrapping.

(** ** Escaping a line of the diagram *)

Section Escaping.

Import PDFService FigmaService.

Lemma replace_char_append (old : ascii) (new a b : string) :
  replace_char old new (a +:+ b) = replace_char old new a +:+ replace_char old new b.
Proof.
  induction a as [|x a IH]; [done |].
  change (replace_char old new (String x (a +:+ b))
          = replace_char old new (String x a) +:+ replace_char old new b).
  cbn [replace_char]. destruct (decide (x = old)).
  - by rewrite IH, append_assoc.
  - by rewrite IH.
Qed.

(** the three replacements amount to one pass over the characters *)
Lemma escape_line_single_pass (line : string) : escape_line line = escape_chars line.
Proof.
  unfold escape_line. induction line as [|a line IH]; [done |].
  cbn [replace_char escape_chars].
  destruct (decide (a = "&"%char)) as [->|Hamp].
  - rewrite !replace_char_append, IH. done.
  - cbn [replace_char]. destruct (decide (a = "<"%char)) as [->|Hlt].
    + rewrite !replace_char_append, IH. done.
    + cbn [replace_char]. destruct (decide (a = ">"%char)) as [->|Hgt].
      * by rewrite IH.
      * by rewrite IH.
Qed.

Lemma lacks_append (c : ascii) (a b : string) :
  lacks c (a +:+ b) ↔ lacks c a ∧ lacks c b.
Proof. induction a as [|x a IH]; simpl; tauto. Qed.

Lemma escape_chars_lacks (s : string) :
  lacks "<"%char (escape_chars s) ∧ lacks ">"%char (escape_chars s).
Proof.
  induction s as [|a s [IH1 IH2]]; [done |].
  cbn [escape_chars]. rewrite !lacks_append.
  repeat case_decide; subst; repeat split; try done; by vm_compute.
Qed.

Lemma escape_chars_inj (s t : string) : escape_chars s = escape_chars t → s = t.
Proof.
  revert t. induction s as [|a s IH]; intros [|b t].
  - done.
  - cbn [escape_chars]. repeat case_decide; discriminate.
  - cbn [escape_chars]. repeat case_decide; discriminate.
  - cbn [escape_chars].
    repeat case_decide; subst; intros Heq; try discriminate Heq;
      injection Heq as Heq; subst; try congruence; by rewrite (IH t).
Qed.

Lemma escape_chars_plain (s : string) :
  lacks "&"%char s → lacks "<"%char s → lacks ">"%char s → escape_chars s = s.
Proof.
  induction s as [|a s IH]; [done |].
  intros [Ha1 Hs1] [Ha2 Hs2] [Ha3 Hs3]. cbn [escape_chars].
  rewrite !decide_False by done. by rewrite IH.
Qed.

(** X15.  The escaped line holds no [<] and no [>]; two lines with the same
    escaped form are the same line; and a line without [&], [<] and [>],
    such as a border of a box, is left as it is. *)
Theorem escape_line_safe (line : string) :
  lacks "<"%char (escape_line line)
  ∧ lacks ">"%char (escape_line line)
  ∧ (∀ other, escape_line line = escape_line other → line = other)
  ∧ (lacks "&"%char line → lacks "<"%char line → lacks ">"%char line →
     escape_line line = line).
Proof.
  rewrite escape_line_single_pass.
  destruct (escape_chars_lacks line) as [Hlt Hgt].
  split; [done |]. split; [done |]. split.
  - intros other. rewrite escape_line_single_pass. apply escape_chars_inj.
  - apply escape_chars_plain.
Qed.

Lemma escape_line_safe_witness :
  escape_line "+------------------+" = "+------------------+".
Proof.
  apply (proj2 (proj2 (proj2 (escape_line_safe "+------------------+"))));
    repeat split; by vm_compute.
Defined.

End Escaping.

(** ** Code fences around a response of the model *)

Section Fences.

Import DiagramService GroqService Samples.

Lemma split_nonempty (c : ascii) (s : string) : split c s ≠ [].
Proof.
  destruct s as [|a s]; [done |]. cbn [split].
  destruct (decide (a = c)); [done |]. by destruct (split c s).
Qed.

(** joining the lines of a text gives the text back *)
Lemma join_split (s : string) : join nl (split newline s) = s.
Proof.
  induction s as [|a s IH]; [done |].
  cbn [split]. pose proof (split_nonempty newline s) as Hne.
  destruct (split newline s) as [|x xs]; [done |].
  destruct (decide (a = newline)) as [->|Ha].
  - change (join nl ("" :: x :: xs)) with ("" +:+ nl +:+ join nl (x :: xs)).
    by rewrite IH.
  - destruct xs as [|y ys].
    + cbn [join] in *. by rewrite IH.
    + change (join nl (String a x :: y :: ys)) with (String a (x +:+ nl +:+ join nl (y :: ys))).
      change (join nl (x :: y :: ys)) with (x +:+ nl +:+ join nl (y :: ys)) in IH.
      by rewrite IH.
Qed.

Lemma split_append_lines (a b : string) :
  split newline (a +:+ nl +:+ b) = split newline a ++ split newline b.
Proof.
  induction a as [|c a IH].
  - change (split newline (String newline b) = [""] ++ split newline b).
    cbn [split]. by rewrite decide_True.
  - change (split newline (String c (a +:+ nl +:+ b))
            = split newline (String c a) ++ split newline b).
    cbn [split]. rewrite IH. pose proof (split_nonempty newline a) as Hne.
    destruct (decide (c = newline)); [done |].
    by destruct (split newline a).
Qed.

Lemma startswith_append (p s : string) : startswith p (p +:+ s) = true.
Proof.
  unfold startswith. induction p as [|a p IH]; [by destruct s |].
  change (String a p +:+ s) with (String a (p +:+ s)). cbn [String.prefix].
  by destruct (ascii_dec a a).
Qed.

Lemma slice_1_m1_inner {A} (x y : A) (l : list A) : slice_1_m1 (x :: l ++ [y]) = l.
Proof.
  unfold slice_1_m1. cbn [drop length]. rewrite length_app. cbn [length].
  replace (S (length l + 1) - 2)%nat with (length l) by lia.
  by rewrite drop_0, take_app_length.
Qed.

(** X16.  A response that begins with a code fence loses its first and its
    last line: when the fence is closed on a line of its own, what is left
    is the text between the fences, and when the whole response is on one
    line, nothing is left. *)
Theorem clean_response_fence (response : string) :
  (∀ lang body,
     strip response = "```" +:+ lang +:+ nl +:+ body +:+ nl +:+ "```" →
     no_newline lang →
     clean_response response = body)
  ∧ (startswith "```" (strip response) = true →
     no_newline (strip response) →
     clean_response response = "").
Proof.
  split.
  - intros lang body Hr Hlang. unfold clean_response. cbn zeta. rewrite Hr.
    rewrite startswith_append.
    change ("```" +:+ lang +:+ nl +:+ body +:+ nl +:+ "```")
      with (("```" +:+ lang) +:+ nl +:+ (body +:+ nl +:+ "```")).
    rewrite split_append_nl by (apply no_newline_append; split; [by vm_compute | done]).
    rewrite split_append_lines.
    change (split newline "```") with ["```"].
    rewrite slice_1_m1_inner. apply join_split.
  - intros Hfence Hline. unfold clean_response. cbn zeta. rewrite Hfence.
    by rewrite split_no_newline.
Qed.

Lemma clean_response_fence_witness :
  clean_response ("  ```json" +:+ nl +:+ "[1, 2]" +:+ nl +:+ "```" +:+ nl) = "[1, 2]".
Proof.
  apply (proj1 (clean_response_fence _) "json" "[1, 2]"); [reflexivity |].
  repeat split; by vm_compute.
Defined.

(** X17.  A fenced answer of the model on a single line is thrown away,
    whatever it holds: [json.loads] is given the empty string, rejects it,
    and the deriver returns the fallback list. *)
Theorem deriver_one_line_fence (json_loads : string → result pyval)
    (figma_data : figma_data_dict) (ai_analysis : ai_analysis_dict)
    (svc : string → result string) (response : string) (e : exn) :
  svc (prompt figma_data ai_analysis) = Ok response →
  startswith "```" (strip response) = true →
  no_newline (strip response) →
  json_loads "" = Raise e →
  extract_components_from_figma json_loads (Some svc) figma_data ai_analysis
  = Ok (PList (PStr <$> fallback_labels_spec figma_data ai_analysis)).
Proof.
  intros Hsvc Hfence Hline Hjson.
  apply (deriver_parse_fails json_loads figma_data ai_analysis svc response e Hsvc).
  by rewrite (proj2 (clean_response_fence response) Hfence Hline).
Qed.

Lemma deriver_one_line_fence_witness :
  extract_components_from_figma json_loads_sample
    (Some (λ _, Ok ("```" +:+ three_items +:+ "```")))
    dashboard_data dashboard_analysis
  = Ok (PList [PStr "Dashboard User"; PStr "Home Interface"; PStr "Settings Interface"]).
Proof.
  apply (deriver_one_line_fence json_loads_sample dashboard_data
           dashboard_analysis (λ _, Ok ("```" +:+ three_items +:+ "```"))
           ("```" +:+ three_items +:+ "```")
           (Exn ValueError "Expecting value: line 1 column 1 (char 0)")).
  - reflexivity.
  - reflexivity.
  - repeat split; by vm_compute.
  - reflexivity.
Defined.

(** the cleaning of [GroqService] *)

Lemma substring_all (s : string) : substring 0 (String.length s) s = s.
Proof. induction s as [|a s IH]; [done |]. cbn [String.length substring]. by rewrite IH. Qed.

Lemma substring_0_append (a b : string) : substring 0 (String.length a) (a +:+ b) = a.
Proof.
  induction a as [|x a IH]; [by destruct b |].
  change (substring 0 (S (String.length a)) (String x (a +:+ b)) = String x a).
  cbn [substring]. by rewrite IH.
Qed.

Lemma drop_chars_append (p s : string) : drop_chars (String.length p) (p +:+ s) = s.
Proof.
  induction p as [|a p IH]; [| exact IH].
  unfold drop_chars. change ("" +:+ s) with s. cbn [String.length].
  rewrite Nat.sub_0_r. apply substring_all.
Qed.

Lemma endswith_append (p a : string) : endswith p (a +:+ p) = true.
Proof.
  induction a as [|x a IH].
  - change ("" +:+ p) with p. destruct p; cbn [endswith]; by rewrite decide_True.
  - change (String x a +:+ p) with (String x (a +:+ p)). cbn [endswith].
    rewrite IH. by destruct (decide _).
Qed.

Lemma drop_last_append (a : string) : drop_last 3 (a +:+ "```") = a.
Proof.
  unfold drop_last. rewrite length_append. cbn [String.length].
  replace (String.length a + 3 - 3)%nat with (String.length a) by lia.
  apply substring_0_append.
Qed.

Lemma lstrip_head (s : string) :
  match lstrip s with EmptyString => True | String a _ => isspace a = false end.
Proof.
  induction s as [|a s IH]; [done |]. cbn [lstrip].
  by destruct (isspace a) eqn:Ha.
Qed.

Lemma rstrip_rstrip (s : string) : rstrip (rstrip s) = rstrip s.
Proof.
  induction s as [|a s IH]; [done |]. cbn [rstrip].
  destruct (rstrip s) as [|b r] eqn:Hr.
  - destruct (isspace a) eqn:Ha; [done |]. cbn [rstrip]. by rewrite Ha.
  - change (rstrip (String a (String b r)) = String a (String b r)).
    cbn [rstrip] in *. by rewrite IH.
Qed.

Lemma lstrip_rstrip (s : string) :
  match s with EmptyString => True | String a _ => isspace a = false end →
  lstrip (rstrip s) = rstrip s.
Proof.
  destruct s as [|a s]; [done |]. intros Ha. cbn [rstrip].
  destruct (rstrip s); rewrite ?Ha; cbn [lstrip]; by rewrite Ha.
Qed.

Lemma strip_strip (s : string) : strip (strip s) = strip s.
Proof.
  unfold strip. rewrite lstrip_rstrip by apply lstrip_head. apply rstrip_rstrip.
Qed.

Lemma prefix_longer (p q s : string) :
  String.prefix p s = false → String.prefix (p +:+ q) s = false.
Proof.
  revert s. induction p as [|a p IH]; intros s; [by destruct s |].
  change (String a p +:+ q) with (String a (p +:+ q)).
  destruct s as [|b s]; [done |]. cbn [String.prefix].
  destruct (ascii_dec a b); [apply IH | done].
Qed.

(** X18.  [GroqService] takes the fences off a response: of
    [```json BODY ```] and of [``` BODY ```], surrounded by any whitespace,
    the text given to [json.loads] is [BODY] stripped, also when the fences
    and the body are on one line. *)
Theorem clean_json_response_fenced (response_text body : string) :
  (strip response_text = "```json" +:+ body +:+ "```"
   ∧ startswith "```" (body +:+ "```") = false)
  ∨ (strip response_text = "```" +:+ body +:+ "```"
     ∧ startswith "json" (body +:+ "```") = false) →
  clean_json_response response_text = strip body.
Proof.
  intros [[Hr Hbody] | [Hr Hbody]]; unfold clean_json_response; cbn zeta; rewrite Hr.
  - rewrite startswith_append. cbn beta iota.
    change 7%nat with (String.length "```json").
    rewrite drop_chars_append, Hbody. cbn beta iota.
    rewrite endswith_append. cbn beta iota. by rewrite drop_last_append.
  - change (startswith "```json" ("```" +:+ body +:+ "```"))
      with (startswith "json" (body +:+ "```")).
    rewrite Hbody. cbn beta iota. rewrite startswith_append. cbn beta iota.
    change (drop_chars 3) with (drop_chars (String.length "```")).
    rewrite drop_chars_append, endswith_append. cbn beta iota.
    by rewrite drop_last_append.
Qed.

Lemma clean_json_response_fenced_witness :
  clean_json_response ("```json" +:+ nl +:+ "{}" +:+ nl +:+ "```" +:+ nl) = "{}".
Proof.
  apply (clean_json_response_fenced _ (nl +:+ "{}" +:+ nl)).
  left. split; reflexivity.
Defined.

(** X19.  Of a response that, once stripped, neither begins nor ends with
    a fence, the text given to [json.loads] is the stripped response. *)
Theorem clean_json_response_plain (response_text : string) :
  startswith "```" (strip response_text) = false →
  endswith "```" (strip response_text) = false →
  clean_json_response response_text = strip response_text.
Proof.
  intros Hstart Hend. unfold clean_json_response. cbn zeta.
  replace (startswith "```json" (strip response_text)) with false
    by (symmetry; apply (prefix_longer "```" "json"), Hstart).
  rewrite Hstart. cbn beta iota. rewrite Hend. apply strip_strip.
Qed.

Lemma clean_json_response_plain_witness :
  clean_json_response "  {} " = "{}".
Proof. apply (clean_json_response_plain "  {} "); reflexivity. Defined.

End Fences.
